(** * data_utils.py: loading, windowing, balancing and splitting sensor data

    A shallow embedding of [src/data_utils.py].  NumPy arrays, pandas tables
    and torch tensors are lists; Python integers are [Z]; a Python exception is
    a [Raise] in the [result] monad.  The random generator of NumPy and the
    file system are explicit arguments, and so are the conversions to float32
    and the arithmetic of double precision.  The [print] calls of the module
    do not change what it returns or raises and are left out. *)

From Stdlib Require Import ZArith QArith Lia.
From stdpp Require Import base list strings gmap sorting.

Local Open Scope Z_scope.

(** * Part I: the program *)

(** ** Exceptions and the error monad *)

Inductive exn : Type :=
  | IndexError
  | ValueError
  | OSError
  | ParserError
  | RuntimeError.

Inductive result (A : Type) : Type :=
  | Ok (a : A)
  | Raise (e : exn).
Arguments Ok {A} a.
Arguments Raise {A} e.

#[global] Instance result_ret : MRet result := fun A a => Ok a.
#[global] Instance result_bind : MBind result := fun A B f m =>
  match m with
  | Ok a => f a
  | Raise e => Raise e
  end.
#[global] Instance result_fmap : FMap result := fun A B f m =>
  match m with
  | Ok a => Ok (f a)
  | Raise e => Raise e
  end.

(** [for x in xs: body] over an accumulator, stopping at the first exception. *)
Fixpoint for_each {A S : Type} (body : S -> A -> result S) (xs : list A) (acc : S)
  : result S :=
  match xs with
  | [] => Ok acc
  | x :: xs' => acc' ← body acc x; for_each body xs' acc'
  end.

(** ** Python built-ins used by the module *)

(** [range(start, stop, step)]: CPython computes the length in closed form and
    yields [start + k * step]; a zero step is a [ValueError]. *)
Definition range_length (start stop step : Z) : Z :=
  if 0 <? step then
    if start <? stop then (stop - start - 1) / step + 1 else 0
  else
    if stop <? start then (start - stop - 1) / (- step) + 1 else 0.

Definition py_range (start stop step : Z) : result (list Z) :=
  if step =? 0 then Raise ValueError
  else Ok (map (fun k : nat => start + Z.of_nat k * step)
               (seq 0 (Z.to_nat (range_length start stop step)))).

(** A slice bound: negative bounds count from the end, and both are clamped. *)
Definition slice_bound (n k : Z) : Z :=
  if k <? 0 then Z.max 0 (k + n) else Z.min k n.

(** [l[i:j]] *)
Definition py_slice {A : Type} (l : list A) (i j : Z) : list A :=
  let n := Z.of_nat (length l) in
  let a := slice_bound n i in
  let b := slice_bound n j in
  take (Z.to_nat (b - a)) (drop (Z.to_nat a) l).

(** [l[k]]: a negative index counts from the end; out of range is an
    [IndexError]. *)
Definition py_index {A : Type} (l : list A) (k : Z) : result A :=
  let n := Z.of_nat (length l) in
  let k' := if k <? 0 then k + n else k in
  if (k' <? 0) || (n <=? k') then Raise IndexError
  else match l !! Z.to_nat k' with
       | Some x => Ok x
       | None => Raise IndexError
       end.

(** [torch.tensor(X)] on a list of arrays refuses a ragged list. *)
Definition same_shape {A : Type} (X : list (list A)) : bool :=
  match X with
  | [] => true
  | x :: X' => forallb (fun x' => Nat.eqb (length x') (length x)) X'
  end.

(** ** [prepare_data] *)

Section PrepareData.
(** [cell]: a number as pandas read it; [f32]: a float32 tensor element.
    The two [torch.tensor(..., dtype=...)] calls convert element-wise. *)
Context {cell f32 : Type}.
Variable as_float32 : cell -> f32.
Variable as_long : cell -> Z.

Definition window_step (features : list (list cell)) (labels : list cell)
    (window_size : Z) (acc : list (list (list cell)) * list cell) (i : Z)
  : result (list (list (list cell)) * list cell) :=
  let '(X, y) := acc in
  let window_features := py_slice features i (i + window_size) in
  window_label ← py_index labels (i + window_size - 1);
  Ok (X ++ [window_features], y ++ [window_label]).

Definition prepare_data (features : list (list cell)) (labels : list cell)
    (window_size stride : Z)
  : result (list (list (list f32)) * list Z) :=
  idx ← py_range 0 (Z.of_nat (length features) - window_size + 1) stride;
  '(X, y) ← for_each (window_step features labels window_size) idx ([], []);
  if same_shape X
  then Ok (map (map (map as_float32)) X, map as_long y)
  else Raise ValueError.

Definition default_window_size : Z := 20.
Definition default_stride : Z := 1.
End PrepareData.

(** ** [get_class_name] *)

(** The dictionary literal of [get_class_name]. *)
Definition class_names : gmap Z string :=
  {[ 0 := "Non-request"; 1 := "Both hands"; 2 := "Left hand"; 3 := "Right hand" ]}%string.

(** [class_names.get(feature_value, "Unknown")] *)
Definition get_class_name (feature_value : Z) : string :=
  default "Unknown"%string (class_names !! feature_value).

(** ** Files, tables and arrays *)

(** [str.endswith] *)
Definition endswith (s suffix : string) : bool :=
  let n := String.length s in
  let k := String.length suffix in
  (k <=? n)%nat && String.eqb (String.substring (n - k) k s) suffix.

Definition BASE_DATA_PATH : string := "C:\model101\.venv\Scripts\separated_data".

Section Tables.
Context {cell : Type}.

(** A pandas table: [ncols] columns and the data rows, each of [ncols] cells. *)
Record table : Type := Table { ncols : nat; trows : list (list cell) }.

Definition table_wf (t : table) : Prop :=
  Forall (λ r, length r = ncols t) (trows t).

(** A two-dimensional NumPy array: the second dimension is kept beside the
    rows, as an array without rows still has a width. *)
Record array2 : Type := Array2 { width : nat; rows : list (list cell) }.

(** What the operating system and pandas answer: the names in a directory,
    the table parsed from a path, and the platform's [os.path.join]. *)
Record filesystem : Type := FileSystem {
  listdir : string → result (list string);
  read_csv : string → result table;
  path_join : string → string → string;
}.

(** [data.iloc[:, i:j].values] *)
Definition iloc_columns (data : table) (i j : Z) : array2 :=
  {| width := length (py_slice (seq 0 (ncols data)) i j);
     rows := map (λ r, py_slice r i j) (trows data) |}.

(** [data.iloc[:, k].values]: the position is checked against the number of
    columns, also for a table without rows. *)
Definition iloc_column (data : table) (k : Z) : result (list cell) :=
  _ ← py_index (seq 0 (ncols data)) k;
  for_each (λ acc r, x ← py_index r k; Ok (acc ++ [x])) (trows data) [].

(** Lines 47 to 50: the two arrays taken from one file. *)
Definition file_arrays (data : table) : result (array2 * list cell) :=
  let feature_cols := iloc_columns data 1 (-2) in
  labels ← iloc_column data (-2);
  Ok (feature_cols, labels).

(** [np.vstack] of two-dimensional arrays *)
Definition np_vstack (arrays : list array2) : result array2 :=
  match arrays with
  | [] => Raise ValueError
  | a :: arrays' =>
      if forallb (λ b, Nat.eqb (width b) (width a)) arrays'
      then Ok {| width := width a; rows := concat (map rows arrays) |}
      else Raise ValueError
  end.

(** [np.concatenate] of one-dimensional arrays *)
Definition np_concatenate {A : Type} (arrays : list (list A)) : result (list A) :=
  match arrays with
  | [] => Raise ValueError
  | _ => Ok (concat arrays)
  end.

(** *** Input and output: the paths handed to [pd.read_csv] are logged. *)
Definition io (A : Type) : Type := list string → list string * result A.

Definition io_ret {A : Type} (a : A) : io A := λ log, (log, Ok a).
Definition io_bind {A B : Type} (m : io A) (f : A → io B) : io B :=
  λ log, match m log with
         | (log', Ok a) => f a log'
         | (log', Raise e) => (log', Raise e)
         end.
Definition io_lift {A : Type} (r : result A) : io A := λ log, (log, r).

Definition os_listdir (fs : filesystem) (path : string) : io (list string) :=
  λ log, (log, listdir fs path).
Definition pd_read_csv (fs : filesystem) (path : string) : io table :=
  λ log, (log ++ [path], read_csv fs path).

Fixpoint io_for_each {A S : Type} (body : S → A → io S) (xs : list A) (acc : S)
  : io S :=
  match xs with
  | [] => io_ret acc
  | x :: xs' => io_bind (body acc x) (io_for_each body xs')
  end.
End Tables.
Arguments table : clear implicits.
Arguments array2 : clear implicits.
Arguments filesystem : clear implicits.

Notation "x ⇐ m ; k" := (io_bind m (λ x, k))
  (at level 20, m at level 100, k at level 200, only parsing, right associativity).
Notation "' x ⇐ m ; k" := (io_bind m (λ x, k))
  (at level 20, x pattern, m at level 100, k at level 200, only parsing,
   right associativity).

(** ** [load_data_from_files] *)

Section Load.
Context {cell : Type}.
Variable fs : filesystem cell.

(** The body of the loop over the directory listing. *)
Definition load_file (acc : list (array2 cell) * list (list cell)) (filename : string)
  : io (list (array2 cell) * list (list cell)) :=
  let '(all_features, all_labels) := acc in
  if endswith filename ".csv" then
    let file_path := path_join fs BASE_DATA_PATH filename in
    data ⇐ pd_read_csv fs file_path;
    '(feature_cols, labels) ⇐ io_lift (file_arrays data);
    io_ret (all_features ++ [feature_cols], all_labels ++ [labels])
  else io_ret acc.

Definition load_data_from_files : io (array2 cell * list cell) :=
  names ⇐ os_listdir fs BASE_DATA_PATH;
  '(all_features, all_labels) ⇐ io_for_each load_file names ([], []);
  features ⇐ io_lift (np_vstack all_features);
  labels ⇐ io_lift (np_concatenate all_labels);
  io_ret (features, labels).
End Load.

(** The directory entries the loop of [load_data_from_files] works on. *)
Definition csv_files (names : list string) : list string :=
  List.filter (λ filename, endswith filename ".csv") names.

(** ** NumPy functions used by [balance_classes] *)

(** How often [c] occurs in [y]. *)
Definition count (c : Z) (y : list Z) : nat := length (filter (λ v, v = c) y).

(** [np.unique(y, return_counts=True)]: the sorted distinct values, and for
    each the number of times it occurs. *)
Definition np_unique (y : list Z) : list Z * list nat :=
  let unique := merge_sort Z.le (remove_dups y) in
  (unique, map (λ c, count c y) unique).

(** [np.sort] on counts *)
Definition np_sort (a : list nat) : list nat := merge_sort Nat.le a.

(** [np.where(y == cls)[0]]: the positions holding [cls], ascending. *)
Definition np_where_eq (y : list Z) (cls : Z) : list nat :=
  filter (λ i, y !! i = Some cls) (seq 0 (length y)).

(** [a[indices]] with a list of non-negative positions. *)
Definition np_take {A : Type} (a : list A) (indices : list nat) : result (list A) :=
  for_each (λ acc i, match a !! i with
                     | Some x => Ok (acc ++ [x])
                     | None => Raise IndexError
                     end) indices [].

(** *** The random generator

    The Mersenne Twister behind [np.random] is not part of the repository: a
    generator state is an arbitrary sequence of draws and a position in it;
    a bounded draw reduces the next element into the interval [0 .. max]. *)
Record rng : Type := Rng { draws : nat → nat; position : nat }.

Definition random_interval (g : rng) (max : nat) : nat * rng :=
  ((draws g (position g) mod S max)%nat,
   {| draws := draws g; position := S (position g) |}).

(** [x[i], x[j] = x[j], x[i]] *)
Definition swap {A : Type} (x : list A) (i j : nat) : list A :=
  match x !! i, x !! j with
  | Some a, Some b => <[i := b]> (<[j := a]> x)
  | _, _ => x
  end.

(** The loop of [shuffle]: [for i in reversed(range(1, n))], each step
    swapping position [i] with a position drawn from [0 .. i]. *)
Fixpoint shuffle_from {A : Type} (i : nat) (x : list A) (g : rng) : list A * rng :=
  match i with
  | O => (x, g)
  | S i' => let '(j, g') := random_interval g i in
            shuffle_from i' (swap x i j) g'
  end.

(** [np.random.shuffle] *)
Definition np_random_shuffle {A : Type} (x : list A) (g : rng) : list A * rng :=
  shuffle_from (length x - 1) x g.

(** [np.random.permutation(n)] *)
Definition np_random_permutation (n : nat) (g : rng) : list nat * rng :=
  np_random_shuffle (seq 0 n) g.

(** [np.random.choice(a, size=size, replace=False)] *)
Definition np_random_choice {A : Type} (a : list A) (size : Z) (g : rng)
  : result (list A * rng) :=
  if (Nat.eqb (length a) 0) && negb (size =? 0) then Raise ValueError
  else if Z.of_nat (length a) <? size then Raise ValueError
  else if size <? 0 then Raise ValueError
  else
    let '(perm, g') := np_random_permutation (length a) g in
    let idx := take (Z.to_nat size) perm in
    chosen ← np_take a idx;
    Ok (chosen, g').

(** ** Number formats

    [torch.tensor(a, dtype=torch.long)] on an array of integers: an integer
    of an array is within 64 bits, and the conversion keeps it. *)
Definition torch_long (v : Z) : Z := v.

(** [torch.tensor(a, dtype=torch.float32)] on an integer: the nearest number
    with 24 significant bits, a tie going to the even one.  That number is an
    integer again and is given as such; every 64-bit integer is within the
    exponent range. *)
Definition float32_of_int (v : Z) : Z :=
  let a := Z.abs v in
  let e := Z.log2 a - 23 in
  if e <=? 0 then v
  else
    let m := a / 2 ^ e in
    let r := a mod 2 ^ e in
    let m' := match 2 * r ?= 2 ^ e with
              | Gt => m + 1
              | Eq => if Z.odd m then m + 1 else m
              | Lt => m
              end in
    Z.sgn v * (m' * 2 ^ e).

(** Double precision as NumPy computes with it: the conversion of an integer
    ([astype(np.float64)], and a Python [int] operand), the product and the
    quotient. *)
Class Float64 (f64 : Type) : Type := {
  float_of_int : Z → f64;
  fmul : f64 → f64 → f64;
  fdiv : f64 → f64 → f64;
}.

(** The rational nearest to [q] among those with [bits] significant bits, a
    tie going to the one whose last bit is even: IEEE 754 rounding, without
    the bounds on the exponent. *)
Definition round_to_bits (bits : Z) (q : Q) : Q :=
  let p := Z.abs (Qnum q) in
  let d := Z.pos (Qden q) in
  if p =? 0 then 0%Q
  else
    let E := Z.log2 p - Z.log2 d in
    let above := if 0 <=? E then d * 2 ^ E <=? p else d <=? p * 2 ^ (- E) in
    let L := if above then E else E - 1 in
    let e := L - (bits - 1) in
    let a := if 0 <=? e then p else p * 2 ^ (- e) in
    let b := if 0 <=? e then d * 2 ^ e else d in
    let m := a / b in
    let r := a mod b in
    let m' := match 2 * r ?= b with
              | Gt => m + 1
              | Eq => if Z.odd m then m + 1 else m
              | Lt => m
              end in
    let v := if 0 <=? e then inject_Z (m' * 2 ^ e)
             else Qred (m' # Z.to_pos (2 ^ (- e))) in
    if Qnum q <? 0 then (- v)%Q else v.

(** The doubles as the rationals they are.  The quotient by zero, which the
    class weights never take, is not a rational and is left at 0. *)
Definition binary64 : Float64 Q := {|
  float_of_int := λ v, round_to_bits 53 (inject_Z v);
  fmul := λ a b, round_to_bits 53 (a * b)%Q;
  fdiv := λ a b, round_to_bits 53 (a / b)%Q;
|}.

(** ** [balance_classes] *)

(** The body of the loop over the classes. *)
Definition balance_step (y : list Z) (target_size : Z)
    (acc : list nat * rng) (cls : Z) : result (list nat * rng) :=
  let '(balanced_indices, g) := acc in
  let cls_indices := np_where_eq y cls in
  if target_size <? Z.of_nat (length cls_indices) then
    '(selected_indices, g') ← np_random_choice cls_indices target_size g;
    Ok (balanced_indices ++ selected_indices, g')
  else
    Ok (balanced_indices ++ cls_indices, g).

(** The target when [target_size is None]: [int(sorted_counts[-2])]. *)
Definition default_target_size (class_counts : list nat) : result Z :=
  let sorted_counts := np_sort class_counts in
  t ← py_index sorted_counts (-2);
  Ok (Z.of_nat t).

(** [sample]: a row of [X] as the tensor holds it; [fsample]: the row as a
    float32 tensor holds it; [as_float32]: the conversion of line 100.  The
    labels are the integers of a tensor. *)
Definition balance_classes {sample fsample : Type} (as_float32 : sample → fsample)
    (X : list sample) (y : list Z) (target_size : option Z) (g : rng)
  : result (list fsample * list Z * rng) :=
  let '(unique_classes, class_counts) := np_unique y in
  target_size ← match target_size with
                | None => default_target_size class_counts
                | Some t => Ok t
                end;
  '(balanced_indices, g1) ←
    for_each (balance_step y target_size) unique_classes ([], g);
  let '(balanced_indices, g2) := np_random_shuffle balanced_indices g1 in
  X_balanced ← np_take X balanced_indices;
  y_balanced ← np_take y balanced_indices;
  let X_balanced := map as_float32 X_balanced in
  let y_balanced := map torch_long y_balanced in
  Ok (X_balanced, y_balanced, g2).

(** ** Splitting and weighting: the library functions *)

(** [ceil(0.2 * n)] of scikit-learn's [train_test_split]: the product is taken
    in double precision, and its ceiling is [ceil(n / 5)] for every sample
    count that a machine can hold. *)
Definition n_test_of (n_samples : nat) : nat :=
  Z.to_nat ((Z.of_nat n_samples + 4) / 5).

(** [y == i] on a tensor, and the positions a mask selects. *)
Definition eq_mask (y : list Z) (i : Z) : list bool :=
  map (λ v, bool_decide (v = i)) y.

Definition mask_nonzero (mask : list bool) : list nat :=
  filter (λ j, mask !! j = Some true) (seq 0 (length mask)).

(** [X[mask]] with a boolean mask over the first dimension. *)
Definition mask_index {A : Type} (X : list A) (mask : list bool) : result (list A) :=
  if Nat.eqb (length mask) (length X)
  then np_take X (mask_nonzero mask)
  else Raise IndexError.

(** [torch.cat] *)
Definition torch_cat {A : Type} (tensors : list (list A)) : result (list A) :=
  match tensors with
  | [] => Raise RuntimeError
  | _ => Ok (concat tensors)
  end.

(** [train_test_split(X, y, test_size=0.2, random_state=42)]: both arrays
    are cut along one permutation, drawn from the generator [seed42] that
    [RandomState(42)] starts with; the test part comes first in it. *)
Definition train_test_split {A B : Type} (seed42 : rng) (X : list A) (y : list B)
  : result (list A * list A * list B * list B) :=
  if negb (Nat.eqb (length X) (length y)) then Raise ValueError
  else
    let n_samples := length X in
    let n_test := n_test_of n_samples in
    let n_train := (n_samples - n_test)%nat in
    if Nat.eqb n_train 0 then Raise ValueError
    else
      let permutation := (np_random_permutation n_samples seed42).1 in
      let ind_test := take n_test permutation in
      let ind_train := take n_train (drop n_test permutation) in
      X_train ← np_take X ind_train;
      X_test ← np_take X ind_test;
      y_train ← np_take y ind_train;
      y_test ← np_take y ind_test;
      Ok (X_train, X_test, y_train, y_test).

(** [LabelEncoder.transform]: the position of a label among the classes. *)
Fixpoint index_of (v : Z) (classes : list Z) : option nat :=
  match classes with
  | [] => None
  | c :: classes' => if decide (c = v) then Some O else S <$> index_of v classes'
  end.

Definition label_transform (classes : list Z) (acc : list nat) (v : Z)
  : result (list nat) :=
  match index_of v classes with
  | Some k => Ok (acc ++ [k])
  | None => Raise ValueError
  end.

(** [np.bincount] *)
Definition np_bincount (x : list nat) : list nat :=
  match x with
  | [] => []
  | _ => map (λ k, length (filter (λ j, j = k) x)) (seq 0 (S (max_list x)))
  end.

(** [compute_class_weight(class_weight='balanced', classes=classes, y=y)]:
    [recip_freq = len(y) / (len(le.classes_) * np.bincount(y_ind).astype(np.float64))],
    in double precision. *)
Definition compute_class_weight {f64 : Type} {F64 : Float64 f64}
    (classes : list Z) (y : list Z) : result (list f64) :=
  let le_classes := (np_unique y).1 in
  y_ind ← for_each (label_transform le_classes) y [];
  if negb (forallb (λ c, bool_decide (c ∈ le_classes)) classes)
  then Raise ValueError
  else
    let recip_freq :=
      map (λ b : nat, fdiv (float_of_int (Z.of_nat (length y)))
                           (fmul (float_of_int (Z.of_nat (length le_classes)))
                                 (float_of_int (Z.of_nat b))))
          (np_bincount y_ind) in
    positions ← for_each (label_transform le_classes) classes [];
    np_take recip_freq positions.

(** ** [prepare_train_test_data] *)

Section Pipeline.
Context {cell f32 f64 : Type} {F64 : Float64 f64}.
Variable as_float32 : cell → f32.
Variable as_long : cell → Z.
(** The generator behind [np.random] and the one of [RandomState(42)]. *)
Variable global_rng seed42 : rng.

Local Abbreviation sample := (list (list f32)).

(** One pass of the loop over [zip(X_classes, y_classes)]. *)
Definition split_step
    (acc : list (list sample) * list (list sample) * list (list Z) * list (list Z))
    (cls : list sample * list Z)
  : result (list (list sample) * list (list sample) * list (list Z) * list (list Z)) :=
  let '(X_train, X_test, y_train, y_test) := acc in
  let '(X_class, y_class) := cls in
  '(X_train_class, X_test_class, y_train_class, y_test_class) ←
    train_test_split seed42 X_class y_class;
  Ok (X_train ++ [X_train_class], X_test ++ [X_test_class],
      y_train ++ [y_train_class], y_test ++ [y_test_class]).

(** Lines 151 to 170: the split by class. *)
Definition stratified_split (X_balanced : list sample) (y_balanced : list Z)
    (unique_labels : list Z)
  : result (list sample * list sample * list Z * list Z) :=
  ids ← py_range 0 (Z.of_nat (length unique_labels)) 1;
  X_classes ← for_each (λ acc i, X_class ← mask_index X_balanced (eq_mask y_balanced i);
                                 Ok (acc ++ [X_class])) ids [];
  y_classes ← for_each (λ acc i, y_class ← mask_index y_balanced (eq_mask y_balanced i);
                                 Ok (acc ++ [y_class])) ids [];
  '(X_train, X_test, y_train, y_test) ←
    for_each split_step (zip X_classes y_classes) ([], [], [], []);
  X_train ← torch_cat X_train;
  X_test ← torch_cat X_test;
  y_train ← torch_cat y_train;
  y_test ← torch_cat y_test;
  Ok (X_train, X_test, y_train, y_test).

(** What follows the loading.  [X] is a float32 tensor when it reaches
    [balance_classes], whose conversion to float32 then is the identity. *)
Definition prepare_loaded (features : array2 cell) (labels : list cell)
  : result (list sample * list sample * list Z * list Z * list f64) :=
  '(X, y) ← prepare_data as_float32 as_long (rows features) labels
              default_window_size default_stride;
  '(X_balanced, y_balanced, _) ← balance_classes id X y None global_rng;
  let '(unique_labels, counts) := np_unique y_balanced in
  '(X_train, X_test, y_train, y_test) ←
    stratified_split X_balanced y_balanced unique_labels;
  class_weights ← compute_class_weight (np_unique y_balanced).1 y_balanced;
  Ok (X_train, X_test, y_train, y_test, class_weights).

Definition prepare_train_test_data (fs : filesystem cell)
  : io (list sample * list sample * list Z * list Z * list f64) :=
  '(features, labels) ⇐ load_data_from_files fs;
  io_lift (prepare_loaded features labels).
End Pipeline.

(** * Part II: the vocabulary of the statements *)

Section LoadVocabulary.
Context {cell : Type}.
Variable fs : filesystem cell.

(** Reading [filename] in the data directory succeeds and yields the arrays
    [FL] of the file. *)
Definition loads_as (filename : string) (FL : array2 cell * list cell) : Prop :=
  ∃ data, read_csv fs (path_join fs BASE_DATA_PATH filename) = Ok data ∧
          file_arrays data = Ok FL.

(** Reading [filename], or taking its arrays, raises [e]. *)
Definition load_raises (filename : string) (e : exn) : Prop :=
  read_csv fs (path_join fs BASE_DATA_PATH filename) = Raise e ∨
  ∃ data, read_csv fs (path_join fs BASE_DATA_PATH filename) = Ok data ∧
          file_arrays data = Raise e.
End LoadVocabulary.

Section Vocabulary.
Local Open Scope nat_scope.
Implicit Types (y : list Z) (c cls : Z) (T : Z).

(** The position that [swap x i j] reads at position [k]. *)
Definition swapped (i j k : nat) : nat :=
  if decide (k = i) then j else if decide (k = j) then i else k.

(** [T] is the second-largest of the counts: up to their order the counts
    are a largest one, [T], and others that are at most [T]. *)
Definition second_largest (T : nat) (counts : list nat) : Prop :=
  ∃ M rest, counts ≡ₚ M :: T :: rest ∧ T ≤ M ∧ Forall (λ v, v ≤ T) rest.

(** What one pass of the loop adds for class [cls]: distinct positions of
    [cls], as many as the class has or [T] of them, whichever is less. *)
Definition class_selection y T cls (sel : list nat) : Prop :=
  NoDup sel ∧ sel ⊆ np_where_eq y cls ∧
  Z.of_nat (length sel) = Z.min (Z.of_nat (count cls y)) T.

(** [Tn] is the second-largest of the per-class counts of [y]. *)
Definition second_largest_class_count y (Tn : nat) : Prop :=
  ∃ classes, NoDup classes ∧ (∀ c, c ∈ classes ↔ c ∈ y) ∧
             second_largest Tn (map (λ c, count c y) classes).

(** The target that [balance_classes] works with: the argument when it is
    given, otherwise the second-largest class count. *)
Definition target_of y (target_size : option Z) T : Prop :=
  match target_size with
  | Some t => T = t
  | None => ∃ Tn : nat, T = Z.of_nat Tn ∧ second_largest_class_count y Tn
  end.

(** The weight of class [c] in the ['balanced'] scheme over [y] with
    [n_classes] classes: [N / (K * count(c))], in double precision. *)
Definition balanced_weight {f64 : Type} {F64 : Float64 f64}
    (y : list Z) (n_classes : nat) (c : Z) : f64 :=
  fdiv (float_of_int (Z.of_nat (length y)))
       (fmul (float_of_int (Z.of_nat n_classes))
             (float_of_int (Z.of_nat (count c y)))).
End Vocabulary.

Section SplitVocabulary.
Local Open Scope nat_scope.
Context {f32 : Type}.
Local Abbreviation sample := (list (list f32)).
Implicit Types (X : list sample) (y : list Z) (i c : Z).

(** What the loop does with one class: the positions of the class that go to
    the training and to the test set, and the four arrays read there. *)
Record class_outcome : Type := ClassOutcome {
  co_train : list nat;
  co_test : list nat;
  co_X_train : list sample;
  co_X_test : list sample;
  co_y_train : list Z;
  co_y_test : list Z;
}.

Definition splits_class X y i (o : class_outcome) : Prop :=
  co_test o ++ co_train o ≡ₚ np_where_eq y i ∧
  length (co_test o) = n_test_of (count i y) ∧
  Forall2 (λ j x, X !! j = Some x) (co_train o) (co_X_train o) ∧
  Forall2 (λ j x, X !! j = Some x) (co_test o) (co_X_test o) ∧
  Forall2 (λ j l, y !! j = Some l) (co_train o) (co_y_train o) ∧
  Forall2 (λ j l, y !! j = Some l) (co_test o) (co_y_test o).

(** [Xi] and [yi] are the rows and labels of class [i]. *)
Definition class_arrays X y i (Xi : list sample) (yi : list Z) : Prop :=
  Forall2 (λ j x, X !! j = Some x) (np_where_eq y i) Xi ∧
  Forall2 (λ j l, y !! j = Some l) (np_where_eq y i) yi.
End SplitVocabulary.

(** * Part III: inputs for the examples *)

(** A data directory with two CSV files and a text file. *)
Definition demo_path_join (a b : string) : string := a +:+ "\" +:+ b.

Definition demo_fs : filesystem Z :=
  {| listdir := λ path,
       if String.eqb path BASE_DATA_PATH
       then Ok ["a.csv"; "notes.txt"; "b.csv"]%string
       else Raise OSError;
     read_csv := λ path,
       if String.eqb path (demo_path_join BASE_DATA_PATH "a.csv")
       then Ok (Table 5 [[0;11;12;1;9]; [1;21;22;3;9]])
       else if String.eqb path (demo_path_join BASE_DATA_PATH "b.csv")
       then Ok (Table 5 [[0;31;32;2;9]])
       else Raise OSError;
     path_join := demo_path_join |}.

(** A directory without any CSV file. *)
Definition empty_fs : filesystem Z :=
  {| listdir := λ _, Ok ["notes.txt"]%string;
     read_csv := λ _, Raise OSError;
     path_join := demo_path_join |}.

(** A directory whose second CSV file cannot be parsed. *)
Definition broken_fs : filesystem Z :=
  {| listdir := λ _, Ok ["a.csv"; "b.csv"; "c.csv"]%string;
     read_csv := λ path,
       if String.eqb path (demo_path_join BASE_DATA_PATH "b.csv")
       then Raise ParserError
       else Ok (Table 5 [[0;11;12;1;9]]);
     path_join := demo_path_join |}.

(** A directory whose two CSV files have five and six columns. *)
Definition ragged_fs : filesystem Z :=
  {| listdir := λ _, Ok ["a.csv"; "b.csv"]%string;
     read_csv := λ path,
       if String.eqb path (demo_path_join BASE_DATA_PATH "a.csv")
       then Ok (Table 5 [[0;11;12;1;9]])
       else Ok (Table 6 [[0;21;22;23;3;9]]);
     path_join := demo_path_join |}.

(** A generator for the examples. *)
Definition demo_rng : rng := Rng (λ k, (5 * k * k + 2)%nat) 0.

(** One CSV file of 24 rows: the windows end on the labels 0, 0, 1, 1, 1. *)
Definition demo_rows (labels : list Z) : list (list Z) :=
  imap (λ k l, [Z.of_nat k; 100 + Z.of_nat k; l; 0]) labels.

Definition one_file_fs (labels : list Z) : filesystem Z :=
  {| listdir := λ _, Ok ["run1.csv"]%string;
     read_csv := λ _, Ok (Table 4 (demo_rows labels));
     path_join := demo_path_join |}.

Definition demo_labels_01 : list Z := replicate 21 0 ++ [1; 1; 1].
Definition demo_labels_02 : list Z := replicate 21 0 ++ [2; 2; 2].

(** 28 rows: the windows end on four labels 0, three labels 1 and two
    labels 2. *)
Definition demo_labels_012 : list Z := replicate 23 0 ++ [1; 1; 1; 2; 2].

(** The doubles nearest to 8/9, 8/9 and 4/3. *)
Definition demo_weights_012 : list Q :=
  [(2001599834386887 # 2251799813685248)%Q;
   (2001599834386887 # 2251799813685248)%Q;
   (6004799503160661 # 4503599627370496)%Q].

(** Window [k] of the features of [one_file_fs]: the rows [k .. k + 19]. *)
Definition demo_window (k : nat) : list (list Z) :=
  map (λ j : nat, [100 + Z.of_nat (k + j)]) (seq 0 20).

(** * Part IV: facts and theorems *)

(** ** Runs of [prepare_data] *)

Example prepare_data_ex1 :
  prepare_data id id [[1];[2];[3];[4];[5]] [10;11;12;13;14] 2 2
  = Ok ([[[1];[2]]; [[3];[4]]], [11; 13]).
Proof. reflexivity. Qed.

Example prepare_data_ex2 :
  prepare_data id id [[1];[2];[3];[4];[5]] [10;11;12;13;14] 2 (-1) = Ok ([], []).
Proof. reflexivity. Qed.

Example prepare_data_ex3 :
  prepare_data id id [[1];[2];[3]] [10;11;12] 2 0 = Raise ValueError.
Proof. reflexivity. Qed.

Example prepare_data_ex4 :
  prepare_data id id [[1];[2];[3]] [10;11;12] 0 1 = Ok ([[];[];[];[]], [12;10;11;12]).
Proof. reflexivity. Qed.

(** ** Facts about the Python built-ins *)

Lemma py_slice_inside {A : Type} (l : list A) (i w : Z) :
  0 ≤ i → 0 ≤ w → i + w ≤ Z.of_nat (length l) →
  py_slice l i (i + w) = take (Z.to_nat w) (drop (Z.to_nat i) l).
Proof.
  intros Hi Hw Hn. unfold py_slice, slice_bound.
  destruct (Z.ltb_spec i 0); [lia|].
  destruct (Z.ltb_spec (i + w) 0); [lia|].
  do 2 f_equal; lia.
Qed.

Lemma py_index_inside {A : Type} (l : list A) (k : Z) :
  0 ≤ k → k < Z.of_nat (length l) →
  ∃ x, l !! Z.to_nat k = Some x ∧ py_index l k = Ok x.
Proof.
  intros Hk Hn. unfold py_index.
  destruct (Z.ltb_spec k 0); [lia|].
  destruct (Z.ltb_spec k 0); [lia|].
  destruct (Z.leb_spec (Z.of_nat (length l)) k); [lia|]. simpl.
  destruct (lookup_lt_is_Some_2 l (Z.to_nat k)) as [x Hx]; [lia|].
  exists x. by rewrite Hx.
Qed.

Lemma range_length_forward (stop step : Z) :
  1 ≤ step → 0 < stop → range_length 0 stop step = (stop - 1) / step + 1.
Proof.
  intros Hs Hstop. unfold range_length.
  destruct (Z.ltb_spec 0 step); [|lia].
  destruct (Z.ltb_spec 0 stop); [|lia].
  by rewrite Z.sub_0_r.
Qed.

Section PrepareDataFacts.
Context {cell f32 : Type}.
Variable as_float32 : cell → f32.
Variable as_long : cell → Z.

(** The loop of [prepare_data] over start positions that all fit. *)
Lemma window_loop_inside (features : list (list cell)) (labels : list cell)
    (w : Z) (idx : list Z) X0 y0 :
  length labels = length features → 1 ≤ w →
  Forall (λ i, 0 ≤ i ∧ i + w ≤ Z.of_nat (length features)) idx →
  ∃ ys,
    Forall2 (λ i l, labels !! Z.to_nat (i + w - 1) = Some l) idx ys ∧
    for_each (window_step features labels w) idx (X0, y0)
    = Ok (X0 ++ map (λ i, take (Z.to_nat w) (drop (Z.to_nat i) features)) idx,
          y0 ++ ys).
Proof.
  intros Hlen Hw Hall. revert X0 y0.
  induction Hall as [|i idx [Hi0 Hi1] _ IH]; intros X0 y0.
  - exists []. split; [constructor|]. simpl. by rewrite !app_nil_r.
  - destruct (py_index_inside labels (i + w - 1)) as (l & Hl & Hpy); [lia..|].
    destruct (IH (X0 ++ [take (Z.to_nat w) (drop (Z.to_nat i) features)])
                 (y0 ++ [l])) as (ys & Hys & Hrun).
    exists (l :: ys). split; [by constructor|].
    simpl. rewrite Hpy. simpl.
    rewrite py_slice_inside by lia.
    rewrite Hrun. by rewrite <- !app_assoc.
Qed.

Lemma same_shape_map {A B : Type} (f : A → list B) (n : nat) (xs : list A) :
  (∀ x, x ∈ xs → length (f x) = n) → same_shape (map f xs) = true.
Proof.
  destruct xs as [|x xs]; [done|]. intros H. simpl.
  apply forallb_forall. intros r Hr. apply Nat.eqb_eq.
  apply in_map_iff in Hr as (x' & <- & Hx').
  rewrite !H; [done|left|right; by apply list_elem_of_In].
Qed.

End PrepareDataFacts.


(** ** [get_class_name]: the mapping *)

Lemma class_names_lookup_other (v : Z) :
  v < 0 ∨ 3 < v → class_names !! v = None.
Proof.
  intros Hv. unfold class_names.
  rewrite !lookup_insert_ne by lia. apply lookup_singleton_ne. lia.
Qed.

(** C8: [get_class_name] is total on the integers: it maps 0, 1, 2 and 3 to
    the four class names and every other integer to ["Unknown"]. *)
Theorem get_class_name_mapping :
  get_class_name 0 = "Non-request"%string ∧
  get_class_name 1 = "Both hands"%string ∧
  get_class_name 2 = "Left hand"%string ∧
  get_class_name 3 = "Right hand"%string ∧
  ∀ v : Z, v < 0 ∨ 3 < v → get_class_name v = "Unknown"%string.
Proof.
  repeat split; try reflexivity.
  intros v Hv. unfold get_class_name. by rewrite class_names_lookup_other.
Qed.

Lemma get_class_name_mapping_witness :
  get_class_name 7 = "Unknown"%string ∧ get_class_name (-1) = "Unknown"%string.
Proof.
  pose proof get_class_name_mapping as (_ & _ & _ & _ & H).
  split; apply H; lia.
Defined.

(** ** The arrays taken from one file *)

Section FileArrays.
Context {cell : Type}.
Implicit Types (t : table cell) (r : list cell).

Lemma py_slice_features_row {A : Type} (r : list A) :
  py_slice r 1 (-2) = take (length r - 3) (drop 1 r).
Proof.
  unfold py_slice, slice_bound.
  destruct (Z.ltb_spec 1 0); [lia|].
  destruct (Z.ltb_spec (-2) 0); [|lia].
  destruct (decide (length r = 0%nat)) as [Hr|Hr].
  - destruct r; [done|discriminate].
  - f_equal; [|f_equal]; lia.
Qed.

Lemma py_index_label_cell {A : Type} (r : list A) :
  (2 ≤ length r)%nat →
  ∃ x, r !! (length r - 2)%nat = Some x ∧ py_index r (-2) = Ok x.
Proof.
  intros Hr. unfold py_index.
  destruct (Z.ltb_spec (-2) 0); [|lia].
  destruct (Z.ltb_spec (-2 + Z.of_nat (length r)) 0); [lia|].
  destruct (Z.leb_spec (Z.of_nat (length r)) (-2 + Z.of_nat (length r))); [lia|].
  simpl. replace (Z.to_nat (-2 + Z.of_nat (length r))) with (length r - 2)%nat by lia.
  destruct (lookup_lt_is_Some_2 r (length r - 2)) as [x Hx]; [lia|].
  exists x. by rewrite Hx.
Qed.

Lemma py_index_label_missing {A : Type} (l : list A) :
  (length l < 2)%nat → py_index l (-2) = Raise IndexError.
Proof.
  intros Hl. unfold py_index.
  destruct (Z.ltb_spec (-2) 0); [|lia].
  destruct (Z.ltb_spec (-2 + Z.of_nat (length l)) 0); [done|lia].
Qed.

Lemma label_loop (m : nat) (trs : list (list cell)) (acc : list cell) :
  (2 ≤ m)%nat → Forall (λ r, length r = m) trs →
  ∃ ys, Forall2 (λ r l, r !! (m - 2)%nat = Some l) trs ys ∧
        for_each (λ acc r, x ← py_index r (-2); Ok (acc ++ [x])) trs acc
        = Ok (acc ++ ys).
Proof.
  intros Hm Hall. revert acc.
  induction Hall as [|r trs Hr _ IH]; intros acc.
  - exists []. split; [constructor|]. simpl. by rewrite app_nil_r.
  - destruct (py_index_label_cell r) as (x & Hx & Hpy); [lia|].
    destruct (IH (acc ++ [x])) as (ys & Hys & Hrun).
    exists (x :: ys). split.
    + constructor; [by rewrite <- Hr|done].
    + simpl. rewrite Hpy. simpl. rewrite Hrun. by rewrite <- app_assoc.
Qed.

Lemma iloc_label_column t :
  table_wf t → (2 ≤ ncols t)%nat →
  ∃ L, Forall2 (λ r l, r !! (ncols t - 2)%nat = Some l) (trows t) L ∧
       iloc_column t (-2) = Ok L.
Proof.
  intros Hwf Hm. unfold iloc_column.
  destruct (py_index_label_cell (seq 0 (ncols t))) as (x & _ & ->);
    [by rewrite length_seq|].
  destruct (label_loop (ncols t) (trows t) [] Hm Hwf) as (L & HL & Hrun).
  exists L. split; [done|]. simpl. by rewrite Hrun.
Qed.

(** C2: from a table of [m] columns the features are columns [1 .. m-3] of
    every row and the labels are column [m-2]; a table with fewer than two
    columns has no second-to-last column and the indexing raises. *)
Theorem file_arrays_columns t :
  table_wf t →
  if decide (2 ≤ ncols t)%nat then
    ∃ F L,
      file_arrays t = Ok (F, L) ∧
      width F = (ncols t - 3)%nat ∧
      Forall2 (λ r f, length f = (ncols t - 3)%nat ∧
                      ∀ j : nat, (j < ncols t - 3)%nat → f !! j = r !! (1 + j)%nat)
              (trows t) (rows F) ∧
      Forall2 (λ r l, r !! (ncols t - 2)%nat = Some l) (trows t) L
  else file_arrays t = Raise IndexError.
Proof.
  intros Hwf. destruct (decide (2 ≤ ncols t)%nat) as [Hm|Hm].
  - destruct (iloc_label_column t Hwf Hm) as (L & HL & Hcol).
    exists (iloc_columns t 1 (-2)), L.
    split; [|split; [|split]].
    + unfold file_arrays. by rewrite Hcol.
    + unfold iloc_columns. cbn [width].
      rewrite py_slice_features_row, length_take, length_drop, length_seq. lia.
    + unfold iloc_columns. cbn [rows]. apply Forall2_fmap_r, Forall2_same_length_lookup.
      split; [done|]. intros i r r' Hr Hr'. simplify_eq.
      assert (length r = ncols t) as Hlen.
      { unfold table_wf in Hwf. rewrite Forall_forall in Hwf.
        apply Hwf. by eapply list_elem_of_lookup_2. }
      unfold compose. rewrite py_slice_features_row, Hlen. split.
      * rewrite length_take, length_drop. lia.
      * intros j Hj. by rewrite lookup_take_lt, lookup_drop.
    + done.
  - unfold file_arrays, iloc_column.
    rewrite py_index_label_missing by (rewrite length_seq; lia). done.
Qed.
End FileArrays.

(** A table of five columns and two rows: columns 1 and 2 are features, column
    3 is the label. *)
Lemma file_arrays_columns_witness :
  ∃ F L,
    file_arrays (Table 5 [[0;11;12;1;9]; [1;21;22;3;9]]) = Ok (F, L) ∧
    width F = 2%nat ∧
    Forall2 (λ r f, length f = 2%nat ∧
                    ∀ j : nat, (j < 2)%nat → f !! j = r !! (1 + j)%nat)
            [[0;11;12;1;9]; [1;21;22;3;9]] (rows F) ∧
    Forall2 (λ r l, r !! 3%nat = Some l) [[0;11;12;1;9]; [1;21;22;3;9]] L.
Proof.
  apply (file_arrays_columns (Table 5 [[0;11;12;1;9]; [1;21;22;3;9]])).
  repeat constructor.
Defined.

Example file_arrays_ex :
  file_arrays (Table 5 [[0;11;12;1;9]; [1;21;22;3;9]])
  = Ok (Array2 2 [[11;12]; [21;22]], [1; 3]).
Proof. reflexivity. Qed.

Example file_arrays_one_column :
  file_arrays (Table 1 [[7]; [8]]) = Raise IndexError.
Proof. reflexivity. Qed.

(** ** [str.endswith] selects the names with the given suffix *)

Lemma substring_whole (s : string) : String.substring 0 (String.length s) s = s.
Proof. induction s as [|c s IH]; simpl; [done|by rewrite IH]. Qed.

Lemma substring_suffix (p suffix : string) :
  String.substring (String.length p) (String.length suffix) (p +:+ suffix) = suffix.
Proof. induction p as [|c p IH]; simpl; [apply substring_whole|done]. Qed.

Lemma substring_split (s : string) (m k : nat) :
  (m + k)%nat = String.length s →
  s = String.substring 0 m s +:+ String.substring m k s.
Proof.
  revert m. induction s as [|c s IH]; intros m Hlen; simpl in *.
  - by destruct m, k.
  - destruct m as [|m]; simpl.
    + destruct k as [|k]; [done|]. simpl. f_equal.
      injection Hlen as ->. by rewrite substring_whole.
    + change (String c s
              = String c (String.substring 0 m s +:+ String.substring m k s)).
      f_equal. apply IH. lia.
Qed.

Lemma length_string_app (p q : string) :
  String.length (p +:+ q) = (String.length p + String.length q)%nat.
Proof. induction p as [|c p IH]; simpl; [done|by rewrite IH]. Qed.

Lemma endswith_spec (s suffix : string) :
  endswith s suffix = true ↔ ∃ p, s = p +:+ suffix.
Proof.
  unfold endswith. rewrite andb_true_iff, Nat.leb_le, String.eqb_eq. split.
  - intros [Hle Hsub].
    exists (String.substring 0 (String.length s - String.length suffix) s).
    etrans; [apply (substring_split s (String.length s - String.length suffix)
                      (String.length suffix)); lia|].
    by rewrite Hsub.
  - intros [p ->]. rewrite length_string_app. split; [lia|].
    replace (String.length p + String.length suffix - String.length suffix)%nat
      with (String.length p) by lia.
    apply substring_suffix.
Qed.

Lemma csv_files_spec (names : list string) (filename : string) :
  In filename (csv_files names) ↔
  In filename names ∧ ∃ stem, filename = stem +:+ ".csv".
Proof. unfold csv_files. by rewrite filter_In, endswith_spec. Qed.

(** ** [load_data_from_files]: what is read and what is returned *)

Section LoadFacts.
Context {cell : Type}.
Variable fs : filesystem cell.

Lemma io_for_each_app {A S : Type} (body : S → A → io S) xs ys acc log :
  io_for_each body (xs ++ ys) acc log
  = io_bind (io_for_each body xs acc) (io_for_each body ys) log.
Proof.
  revert acc log. induction xs as [|x xs IH]; intros acc log; simpl;
    [reflexivity|].
  unfold io_bind. destruct (body acc x log) as [log' [acc'|e]];
    [|reflexivity].
  rewrite IH. reflexivity.
Qed.

Lemma load_file_other acc filename log :
  endswith filename ".csv" = false → load_file fs acc filename log = (log, Ok acc).
Proof. intros H. unfold load_file. destruct acc. by rewrite H. Qed.

Lemma load_file_ok accF accL filename FL log :
  endswith filename ".csv" = true → loads_as fs filename FL →
  load_file fs (accF, accL) filename log
  = (log ++ [path_join fs BASE_DATA_PATH filename],
     Ok (accF ++ [FL.1], accL ++ [FL.2])).
Proof.
  intros H (data & Hread & Harr). unfold load_file. rewrite H.
  unfold io_bind, pd_read_csv, io_lift. rewrite Hread, Harr. by destruct FL.
Qed.

Lemma load_file_raises acc filename e log :
  endswith filename ".csv" = true → load_raises fs filename e →
  load_file fs acc filename log
  = (log ++ [path_join fs BASE_DATA_PATH filename], Raise e).
Proof.
  intros H Hr. unfold load_file. destruct acc as [accF accL]. rewrite H.
  unfold io_bind, pd_read_csv, io_lift.
  destruct Hr as [->|(data & -> & ->)]; done.
Qed.

Lemma load_loop_ok names per_file accF accL log :
  Forall2 (loads_as fs) (csv_files names) per_file →
  io_for_each (load_file fs) names (accF, accL) log
  = (log ++ map (path_join fs BASE_DATA_PATH) (csv_files names),
     Ok (accF ++ map fst per_file, accL ++ map snd per_file)).
Proof.
  revert per_file accF accL log.
  induction names as [|name names IH]; intros per_file accF accL log Hall.
  - simpl in Hall. apply Forall2_nil_inv_l in Hall as ->.
    simpl. by rewrite !app_nil_r.
  - cbn [io_for_each]. unfold io_bind.
    unfold csv_files in Hall |- *. cbn [List.filter] in Hall |- *.
    fold (csv_files names) in *.
    destruct (endswith name ".csv") eqn:Hcsv.
    + apply Forall2_cons_inv_l in Hall as (FL & per_file' & HFL & Hall & ->).
      rewrite (load_file_ok _ _ _ FL) by done.
      rewrite (IH per_file') by done. cbn [map]. by rewrite <- !app_assoc.
    + rewrite load_file_other by done. by apply IH.
Qed.
End LoadFacts.

Section LoadTheorems.
Context {cell : Type}.
Variable fs : filesystem cell.

Lemma np_vstack_same_width (arrays : list (array2 cell)) (d : nat) :
  arrays ≠ [] → Forall (λ a, width a = d) arrays →
  np_vstack arrays = Ok (Array2 d (concat (map rows arrays))).
Proof.
  intros Hne Hall. destruct arrays as [|a arrays]; [done|].
  apply Forall_cons in Hall as [Ha Hall]. unfold np_vstack.
  replace (forallb (λ b, Nat.eqb (width b) (width a)) arrays) with true.
  - by rewrite Ha.
  - symmetry. apply forallb_forall. intros b Hb. apply Nat.eqb_eq.
    rewrite Forall_forall in Hall. rewrite Ha. by apply Hall, list_elem_of_In.
Qed.

Lemma np_vstack_width_mismatch (a b : array2 cell) (arrays : list (array2 cell)) :
  b ∈ arrays → width b ≠ width a → np_vstack (a :: arrays) = Raise ValueError.
Proof.
  intros Hb Hne. unfold np_vstack.
  destruct (forallb _ arrays) eqn:Hall; [|done].
  rewrite forallb_forall in Hall.
  apply list_elem_of_In, Hall, Nat.eqb_eq in Hb. done.
Qed.

(** C6: the function reads the entries of [BASE_DATA_PATH] whose name ends
    in [.csv], in listing order, and nothing else; its result stacks the
    feature rows of those files and concatenates their labels in that
    order. *)
Theorem load_data_from_files_stacks (names : list string)
    (per_file : list (array2 cell * list cell)) (d : nat) (log : list string) :
  listdir fs BASE_DATA_PATH = Ok names →
  Forall2 (loads_as fs) (csv_files names) per_file →
  per_file ≠ [] →
  Forall (λ FL, width FL.1 = d) per_file →
  load_data_from_files fs log
  = (log ++ map (path_join fs BASE_DATA_PATH) (csv_files names),
     Ok (Array2 d (concat (map (λ FL, rows FL.1) per_file)),
         concat (map snd per_file))).
Proof.
  intros Hdir Hloads Hne Hwidth.
  unfold load_data_from_files, io_bind at 1, os_listdir. rewrite Hdir.
  unfold io_bind at 1. rewrite (load_loop_ok fs names per_file) by done.
  rewrite !app_nil_l. unfold io_bind, io_lift, io_ret.
  rewrite (np_vstack_same_width _ d).
  - rewrite map_map. destruct per_file; done.
  - by destruct per_file.
  - by apply Forall_fmap.
Qed.

Lemma load_loop_raises pre name post per_file e acc log :
  endswith name ".csv" = true →
  Forall2 (loads_as fs) (csv_files pre) per_file →
  load_raises fs name e →
  io_for_each (load_file fs) (pre ++ name :: post) acc log
  = (log ++ map (path_join fs BASE_DATA_PATH) (csv_files pre)
         ++ [path_join fs BASE_DATA_PATH name],
     Raise e).
Proof.
  intros Hcsv Hpre Hraise. destruct acc as [accF accL].
  rewrite io_for_each_app. unfold io_bind at 1.
  rewrite (load_loop_ok fs pre per_file) by done.
  cbn [io_for_each]. unfold io_bind.
  rewrite (load_file_raises fs _ name e) by done.
  by rewrite <- app_assoc.
Qed.

(** C7: nothing is caught.  An error of the directory listing, of reading a
    file or taking its columns, or of the stacking, is the outcome of the
    call; with no [.csv] entry the stacking of the empty list raises. *)
Theorem load_data_from_files_raises (log : list string) :
  (∀ e, listdir fs BASE_DATA_PATH = Raise e →
        load_data_from_files fs log = (log, Raise e)) ∧
  (∀ pre name post per_file e,
      listdir fs BASE_DATA_PATH = Ok (pre ++ name :: post) →
      endswith name ".csv" = true →
      Forall2 (loads_as fs) (csv_files pre) per_file →
      load_raises fs name e →
      (load_data_from_files fs log).2 = Raise e) ∧
  (∀ names per_file e,
      listdir fs BASE_DATA_PATH = Ok names →
      Forall2 (loads_as fs) (csv_files names) per_file →
      np_vstack (map fst per_file) = Raise e →
      (load_data_from_files fs log).2 = Raise e) ∧
  (∀ names,
      listdir fs BASE_DATA_PATH = Ok names →
      csv_files names = [] →
      load_data_from_files fs log = (log, Raise ValueError)).
Proof.
  split; [|split; [|split]].
  - intros e Hdir. unfold load_data_from_files, io_bind, os_listdir.
    by rewrite Hdir.
  - intros pre name post per_file e Hdir Hcsv Hpre Hraise.
    unfold load_data_from_files, io_bind at 1, os_listdir. rewrite Hdir.
    unfold io_bind at 1.
    by rewrite (load_loop_raises pre name post per_file e).
  - intros names per_file e Hdir Hloads Hstack.
    unfold load_data_from_files, io_bind at 1, os_listdir. rewrite Hdir.
    unfold io_bind at 1. rewrite (load_loop_ok fs names per_file) by done.
    rewrite !app_nil_l. unfold io_bind, io_lift. by rewrite Hstack.
  - intros names Hdir Hnone.
    unfold load_data_from_files, io_bind at 1, os_listdir. rewrite Hdir.
    unfold io_bind at 1. rewrite (load_loop_ok fs names []); [|rewrite Hnone; constructor].
    rewrite Hnone. cbn [map]. by rewrite !app_nil_r.
Qed.
End LoadTheorems.

(** ** Runs of [load_data_from_files] *)

Example load_demo :
  load_data_from_files demo_fs []
  = ([demo_path_join BASE_DATA_PATH "a.csv"; demo_path_join BASE_DATA_PATH "b.csv"],
     Ok (Array2 2 [[11;12]; [21;22]; [31;32]], [1; 3; 2])).
Proof. reflexivity. Qed.

Lemma load_data_from_files_stacks_witness :
  load_data_from_files demo_fs []
  = ([] ++ map (path_join demo_fs BASE_DATA_PATH)
               (csv_files ["a.csv"; "notes.txt"; "b.csv"]%string),
     Ok (Array2 2 (concat (map (λ FL : array2 Z * list Z, rows FL.1)
                     [(Array2 2 [[11;12]; [21;22]], [1; 3]);
                      (Array2 2 [[31;32]], [2])])),
         concat (map snd [(Array2 2 [[11;12]; [21;22]], [1; 3]);
                          (Array2 2 [[31;32]], [2])]))).
Proof.
  apply (load_data_from_files_stacks demo_fs).
  - reflexivity.
  - repeat constructor; eexists; split; reflexivity.
  - discriminate.
  - repeat constructor.
Defined.

Lemma load_data_from_files_raises_witness :
  load_data_from_files empty_fs [] = ([], Raise ValueError).
Proof.
  apply (proj2 (proj2 (proj2 (load_data_from_files_raises empty_fs [])))
           ["notes.txt"%string]); reflexivity.
Defined.

(** ** A run of [balance_classes] *)

Example balance_classes_ex1 :
  (λ r, (r.1.1, r.1.2)) <$>
    balance_classes float32_of_int [10;11;12;13;14;15;16] [0;0;0;0;1;1;2] None demo_rng
  = Ok ([15; 13; 10; 16; 14], [1; 0; 0; 2; 1]).
Proof. vm_compute. reflexivity. Qed.

(** ** Shuffling and sampling keep the elements *)

Section Sampling.
Local Open Scope nat_scope.
Context {A : Type}.
Implicit Types (x a : list A) (idx : list nat).

Lemma swap_lookup x i j k :
  i < length x → j < length x → swap x i j !! k = x !! swapped i j k.
Proof.
  intros Hi Hj. unfold swap, swapped.
  destruct (lookup_lt_is_Some_2 x i Hi) as [a Ha].
  destruct (lookup_lt_is_Some_2 x j Hj) as [b Hb]. rewrite Ha, Hb.
  destruct (decide (k = i)) as [->|Hki].
  - by rewrite list_lookup_insert_eq by (rewrite length_insert; lia).
  - rewrite list_lookup_insert_ne by done.
    destruct (decide (k = j)) as [->|Hkj].
    + by rewrite list_lookup_insert_eq by lia.
    + by rewrite list_lookup_insert_ne.
Qed.

Lemma swap_Permutation x i j : swap x i j ≡ₚ x.
Proof.
  destruct (decide (i < length x ∧ j < length x)) as [[Hi Hj]|Hn].
  - apply Permutation_inj. split.
    + unfold swap. destruct (x !! i), (x !! j); by rewrite ?length_insert.
    + exists (swapped i j). split.
      * intros k1 k2. unfold swapped. repeat case_decide; lia.
      * intros k. by apply swap_lookup.
  - unfold swap. destruct (x !! i) eqn:Ei; [|done].
    destruct (x !! j) eqn:Ej; [|done].
    exfalso. apply Hn. split; eapply lookup_lt_Some; done.
Qed.

Lemma shuffle_from_Permutation i x g : (shuffle_from i x g).1 ≡ₚ x.
Proof.
  revert x g. induction i as [|i IH]; intros x g; [done|].
  cbn [shuffle_from]. destruct (random_interval g (S i)) as [j g'].
  rewrite IH. apply swap_Permutation.
Qed.

Lemma np_random_shuffle_Permutation x g : (np_random_shuffle x g).1 ≡ₚ x.
Proof. apply shuffle_from_Permutation. Qed.

(** Indexing with positions that are all in range. *)
Lemma np_take_loop a idx acc :
  Forall (λ i, i < length a) idx →
  ∃ out, Forall2 (λ i v, a !! i = Some v) idx out ∧
         for_each (λ acc i, match a !! i with
                            | Some v => Ok (acc ++ [v])
                            | None => Raise IndexError
                            end) idx acc = Ok (acc ++ out).
Proof.
  intros Hall. revert acc. induction Hall as [|i idx Hi _ IH]; intros acc.
  - exists []. split; [constructor|]. simpl. by rewrite app_nil_r.
  - destruct (lookup_lt_is_Some_2 a i Hi) as [v Hv].
    destruct (IH (acc ++ [v])) as (out & Hout & Hrun).
    exists (v :: out). split; [by constructor|].
    simpl. rewrite Hv. simpl. rewrite Hrun. by rewrite <- app_assoc.
Qed.

Lemma np_take_ok a idx :
  Forall (λ i, i < length a) idx →
  ∃ out, np_take a idx = Ok out ∧ Forall2 (λ i v, a !! i = Some v) idx out.
Proof.
  intros Hall. destruct (np_take_loop a idx [] Hall) as (out & Hout & Hrun).
  exists out. split; [exact Hrun|exact Hout].
Qed.

Lemma taken_subseteq a idx out :
  Forall2 (λ i v, a !! i = Some v) idx out → out ⊆ a.
Proof.
  intros Hall v Hv. apply list_elem_of_lookup_1 in Hv as [j Hj].
  destruct (Forall2_lookup_r _ _ _ _ _ Hall Hj) as (i & _ & Hi).
  by eapply list_elem_of_lookup_2.
Qed.

Lemma taken_NoDup a idx out :
  NoDup a → NoDup idx → Forall2 (λ i v, a !! i = Some v) idx out → NoDup out.
Proof.
  intros Ha Hidx Hall. apply NoDup_alt. intros j1 j2 v Hj1 Hj2.
  destruct (Forall2_lookup_r _ _ _ _ _ Hall Hj1) as (i1 & Hi1 & Hv1).
  destruct (Forall2_lookup_r _ _ _ _ _ Hall Hj2) as (i2 & Hi2 & Hv2).
  assert (i1 = i2) as -> by exact (NoDup_lookup a i1 i2 v Ha Hv1 Hv2).
  exact (NoDup_lookup idx j1 j2 i2 Hidx Hi1 Hi2).
Qed.

End Sampling.

Section Choice.
Local Open Scope nat_scope.
Context {A : Type}.
Implicit Types (a : list A) (idx : list nat).

Lemma np_random_permutation_spec n g :
  (np_random_permutation n g).1 ≡ₚ seq 0 n.
Proof. apply np_random_shuffle_Permutation. Qed.

(** Sampling without replacement: [size] elements at distinct positions. *)
Lemma np_random_choice_ok a (size : Z) g :
  (0 ≤ size)%Z → (size ≤ Z.of_nat (length a))%Z →
  ∃ sel g' idx,
    np_random_choice a size g = Ok (sel, g') ∧
    length sel = Z.to_nat size ∧
    NoDup idx ∧ Forall2 (λ i v, a !! i = Some v) idx sel.
Proof.
  intros H0 Hsize. unfold np_random_choice.
  replace (Nat.eqb (length a) 0 && negb (size =? 0)%Z) with false; last first.
  { symmetry. apply andb_false_iff.
    destruct (Nat.eqb_spec (length a) 0); [right|by left].
    apply negb_false_iff, Z.eqb_eq. lia. }
  destruct (Z.ltb_spec (Z.of_nat (length a)) size); [lia|].
  destruct (Z.ltb_spec size 0); [lia|].
  pose proof (np_random_permutation_spec (length a) g) as Hperm.
  destruct (np_random_permutation (length a) g) as [perm g']. simpl in Hperm.
  assert (NoDup perm) as Hnd by (rewrite Hperm; apply NoDup_seq).
  assert (Forall (λ i, i < length a) (take (Z.to_nat size) perm)) as Hlt.
  { apply Forall_forall. intros i Hi. apply subseteq_take in Hi.
    rewrite Hperm in Hi. apply elem_of_seq in Hi. lia. }
  destruct (np_take_ok a _ Hlt) as (sel & Hsel & Hall).
  exists sel, g', (take (Z.to_nat size) perm). split; [|split; [|split]].
  - by rewrite Hsel.
  - apply Forall2_length in Hall. rewrite <- Hall, length_take.
    apply Permutation_length in Hperm. rewrite Hperm, length_seq. lia.
  - eapply sublist_NoDup; [exact Hnd|apply sublist_take].
  - done.
Qed.
End Choice.

(** ** Classes, counts and positions *)

Section Counting.
Local Open Scope nat_scope.
Implicit Types (y : list Z) (c : Z).

Lemma filter_ext_elem {A : Type} (P Q : A → Prop)
    `{!∀ x, Decision (P x), !∀ x, Decision (Q x)} (l : list A) :
  (∀ x, x ∈ l → (P x ↔ Q x)) → filter P l = filter Q l.
Proof.
  induction l as [|x l IH]; intros Hext; [done|].
  rewrite !filter_cons.
  rewrite IH by (intros; apply Hext; by right).
  pose proof (Hext x ltac:(left)). repeat case_decide; tauto.
Qed.

Lemma count_nil c : count c [] = 0.
Proof. done. Qed.

Lemma count_app c y1 y2 : count c (y1 ++ y2) = count c y1 + count c y2.
Proof. unfold count. by rewrite filter_app, length_app. Qed.

Lemma count_cons c v y :
  count c (v :: y) = (if decide (v = c) then 1 else 0) + count c y.
Proof. unfold count. rewrite filter_cons. by case_decide. Qed.

Lemma count_Permutation c y1 y2 : y1 ≡ₚ y2 → count c y1 = count c y2.
Proof. intros H. unfold count. by rewrite H. Qed.

Lemma count_pos c y : c ∈ y ↔ 0 < count c y.
Proof.
  unfold count. split.
  - intros Hc. assert (c ∈ filter (λ v, v = c) y) as Hf
      by (by apply list_elem_of_filter).
    destruct (filter _ y); [by apply elem_of_nil in Hf|simpl; lia].
  - intros Hlen. destruct (filter (λ v, v = c) y) as [|v l] eqn:Hf;
      [simpl in Hlen; lia|].
    assert (v ∈ filter (λ v, v = c) y) as Hv by (rewrite Hf; left).
    apply list_elem_of_filter in Hv as [-> Hv]. done.
Qed.

(** [np.unique]: the distinct values of [y], each once. *)
Lemma np_unique_classes y :
  NoDup (np_unique y).1 ∧ ∀ c, c ∈ (np_unique y).1 ↔ c ∈ y.
Proof.
  unfold np_unique. cbn [fst]. split.
  - rewrite merge_sort_Permutation. apply NoDup_remove_dups.
  - intros c. rewrite merge_sort_Permutation. apply elem_of_remove_dups.
Qed.

Lemma np_unique_counts y :
  (np_unique y).2 = map (λ c, count c y) (np_unique y).1.
Proof. done. Qed.

Lemma elem_of_np_where_eq y c i : i ∈ np_where_eq y c ↔ y !! i = Some c.
Proof.
  unfold np_where_eq. rewrite list_elem_of_filter, elem_of_seq. split.
  - by intros [? _].
  - intros H. split; [done|]. apply lookup_lt_Some in H. lia.
Qed.

Lemma NoDup_np_where_eq y c : NoDup (np_where_eq y c).
Proof. apply NoDup_filter, NoDup_seq. Qed.

Lemma length_np_where_eq y c : length (np_where_eq y c) = count c y.
Proof.
  unfold np_where_eq. induction y as [|v y IH] using rev_ind; [done|].
  rewrite length_app, Nat.add_1_r, seq_S, filter_app, length_app, count_app.
  rewrite (filter_ext_elem _ (λ i, y !! i = Some c)).
  - rewrite IH. f_equal. cbn [Nat.add].
    rewrite filter_cons, filter_nil, list_lookup_middle by done.
    rewrite count_cons, count_nil.
    destruct (decide (v = c)) as [->|Hne].
    + by rewrite decide_True.
    + by rewrite decide_False by congruence.
  - intros i Hi. apply elem_of_seq in Hi. by rewrite lookup_app_l by lia.
Qed.

Lemma default_target_size_ok (counts : list nat) :
  2 ≤ length counts →
  ∃ T, default_target_size counts = Ok (Z.of_nat T) ∧ second_largest T counts.
Proof.
  intros Hlen. unfold default_target_size, np_sort.
  pose proof (merge_sort_Permutation Nat.le counts) as Hperm.
  pose proof (StronglySorted_merge_sort Nat.le counts) as Hsorted.
  set (sorted := merge_sort Nat.le counts) in *.
  assert (length sorted = length counts) as Hl by by rewrite Hperm.
  destruct (py_index_label_cell sorted) as (T & HT & ->); [lia|].
  exists T. split; [done|].
  apply take_drop_middle in HT.
  set (pre := take (length sorted - 2) sorted) in *.
  assert (length pre = length sorted - 2) as Hpre
    by (unfold pre; rewrite length_take; lia).
  destruct (drop (S (length sorted - 2)) sorted) as [|M post] eqn:Hdrop.
  { apply (f_equal length) in Hdrop. rewrite length_drop in Hdrop.
    simpl in Hdrop. lia. }
  assert (post = []) as ->.
  { apply (f_equal length) in Hdrop. rewrite length_drop in Hdrop.
    simpl in Hdrop. destruct post; [done|simpl in Hdrop; lia]. }
  rewrite <- HT in Hsorted.
  apply StronglySorted_app in Hsorted as (Hcross & _ & Htail).
  apply StronglySorted_cons in Htail as [HTM _].
  exists M, pre. split; [|split].
  - rewrite <- Hperm, <- HT. rewrite (Permutation_app_comm pre). simpl.
    apply Permutation_swap.
  - by apply Forall_cons in HTM as [HTM _].
  - apply Forall_forall. intros v Hv. apply (Hcross v T Hv). left.
Qed.

Lemma default_target_size_raises (counts : list nat) :
  length counts < 2 → default_target_size counts = Raise IndexError.
Proof.
  intros Hlen. unfold default_target_size, np_sort.
  rewrite py_index_label_missing; [done|].
  by rewrite merge_sort_Permutation.
Qed.
End Counting.

(** ** The selection made by [balance_classes] *)

Lemma map_torch_long (l : list Z) : map torch_long l = l.
Proof. induction l as [|v l IH]; [done|]. cbn [map]. by rewrite IH. Qed.

Section Balance.
Local Open Scope nat_scope.
Context {sample fsample : Type}.
Variable as_float32 : sample → fsample.
Implicit Types (X : list sample) (y : list Z) (c cls : Z) (T : Z).

Lemma balance_step_ok y T acc g cls :
  (0 ≤ T)%Z →
  ∃ sel g', balance_step y T (acc, g) cls = Ok (acc ++ sel, g') ∧
            class_selection y T cls sel.
Proof.
  intros HT. unfold balance_step.
  destruct (Z.ltb_spec T (Z.of_nat (length (np_where_eq y cls)))) as [Hlt|Hge].
  - destruct (np_random_choice_ok (np_where_eq y cls) T g)
      as (sel & g' & idx & Hrun & Hlen & Hnd & Hall); [lia..|].
    exists sel, g'. rewrite Hrun. split; [done|]. split; [|split].
    + eapply taken_NoDup; [apply NoDup_np_where_eq|exact Hnd|exact Hall].
    + by eapply taken_subseteq.
    + rewrite length_np_where_eq in Hlt. lia.
  - exists (np_where_eq y cls), g. split; [done|]. split; [|split].
    + apply NoDup_np_where_eq.
    + done.
    + rewrite length_np_where_eq in *. lia.
Qed.

Lemma balance_loop_ok y T classes acc g :
  (0 ≤ T)%Z →
  ∃ sels g',
    for_each (balance_step y T) classes (acc, g) = Ok (acc ++ concat sels, g') ∧
    Forall2 (class_selection y T) classes sels.
Proof.
  intros HT. revert acc g.
  induction classes as [|cls classes IH]; intros acc g.
  - exists [], g. split; [|constructor]. simpl. by rewrite app_nil_r.
  - destruct (balance_step_ok y T acc g cls HT) as (sel & g1 & Hstep & Hsel).
    destruct (IH (acc ++ sel) g1) as (sels & g' & Hrun & Hsels).
    exists (sel :: sels), g'. split; [|by constructor].
    cbn [for_each]. rewrite Hstep. cbn. rewrite Hrun. by rewrite <- app_assoc.
Qed.

Lemma selection_label y T cls sel i :
  class_selection y T cls sel → i ∈ sel → y !! i = Some cls.
Proof. intros (_ & Hsub & _) Hi. by apply elem_of_np_where_eq, Hsub. Qed.

Lemma selections_label y T classes sels i :
  Forall2 (class_selection y T) classes sels → i ∈ concat sels →
  ∃ cls, cls ∈ classes ∧ y !! i = Some cls.
Proof.
  induction 1 as [|cls sel classes sels Hsel _ IH]; simpl.
  - by intros ?%elem_of_nil.
  - intros [Hi|Hi]%elem_of_app.
    + exists cls. split; [left|by eapply selection_label].
    + destruct (IH Hi) as (cls' & ? & ?). exists cls'. split; [by right|done].
Qed.

Lemma selections_NoDup y T classes sels :
  NoDup classes → Forall2 (class_selection y T) classes sels →
  NoDup (concat sels).
Proof.
  intros Hnd Hall. induction Hall as [|cls sel classes sels Hsel Hall IH]; simpl.
  - constructor.
  - apply NoDup_cons in Hnd as [Hcls Hnd]. apply NoDup_app. split; [|split].
    + apply Hsel.
    + intros i Hi Hi'.
      destruct (selections_label _ _ _ _ _ Hall Hi') as (cls' & Hcls' & Hy).
      rewrite (selection_label _ _ _ _ _ Hsel Hi) in Hy. by simplify_eq.
    + by apply IH.
Qed.

Lemma selections_count y T classes sels c :
  NoDup classes → Forall2 (class_selection y T) classes sels →
  Z.of_nat (length (filter (λ i, y !! i = Some c) (concat sels)))
  = if decide (c ∈ classes) then Z.min (Z.of_nat (count c y)) T else 0%Z.
Proof.
  intros Hnd Hall.
  induction Hall as [|cls sel classes sels Hsel Hall IH]; cbn [concat].
  - rewrite decide_False; [done|apply not_elem_of_nil].
  - apply NoDup_cons in Hnd as [Hcls Hnd]. specialize (IH Hnd).
    rewrite filter_app, length_app, Nat2Z.inj_add, IH.
    destruct (decide (c = cls)) as [->|Hne].
    + rewrite (decide_True (P := cls ∈ cls :: classes)) by left.
      rewrite decide_False by done.
      rewrite (filter_ext_elem _ (λ _, True)).
      * replace (filter (λ _, True) sel) with sel.
        -- destruct Hsel as (_ & _ & ->). lia.
        -- clear. induction sel as [|i sel IH]; [done|].
           by rewrite filter_cons_True, <- IH.
      * intros i Hi. by rewrite (selection_label _ _ _ _ _ Hsel Hi).
    + rewrite (filter_ext_elem _ (λ _, False)).
      * replace (filter (λ _, False) sel) with (@nil nat).
        -- simpl. destruct (decide (c ∈ classes)) as [Hc|Hc].
           ++ rewrite decide_True by by right. done.
           ++ rewrite decide_False; [done|].
              intros [?|?]%elem_of_cons; done.
        -- clear. induction sel as [|i sel IH]; [done|].
           rewrite filter_cons_False; [exact IH|tauto].
      * intros i Hi. rewrite (selection_label _ _ _ _ _ Hsel Hi).
        split; [intros ?; by simplify_eq|done].
Qed.

Lemma count_taken y idx yb c :
  Forall2 (λ i v, y !! i = Some v) idx yb →
  count c yb = length (filter (λ i, y !! i = Some c) idx).
Proof.
  induction 1 as [|i v idx yb Hi _ IH]; [done|].
  rewrite count_cons, filter_cons, IH, Hi.
  destruct (decide (v = c)) as [->|Hne].
  - by rewrite decide_True.
  - by rewrite decide_False by congruence.
Qed.

(** [balance_classes] returns: the rows, converted, and the labels at
    distinct positions [idx] of the input, holding of every class
    [min(count, T)] positions. *)
Lemma balance_classes_ok X y (target_size : option Z) g :
  length y ≤ length X →
  match target_size with
  | Some t => (0 ≤ t)%Z
  | None => 2 ≤ length (np_unique y).1
  end →
  ∃ Xb yb g' idx T,
    balance_classes as_float32 X y target_size g
    = Ok (map as_float32 Xb, yb, g') ∧
    target_of y target_size T ∧
    NoDup idx ∧
    Forall2 (λ i v, X !! i = Some v) idx Xb ∧
    Forall2 (λ i v, y !! i = Some v) idx yb ∧
    ∀ c, Z.of_nat (length (filter (λ i, y !! i = Some c) idx))
         = if decide (c ∈ y) then Z.min (Z.of_nat (count c y)) T else 0%Z.
Proof.
  intros Hlen Htarget. unfold balance_classes, target_of.
  pose proof (np_unique_classes y) as [Hnd Hmem].
  pose proof (np_unique_counts y) as Hcounts.
  destruct (np_unique y) as [classes counts]. cbn [fst snd] in *. subst counts.
  assert (∃ T, match target_size with
               | Some t => Ok t
               | None => default_target_size (map (λ c, count c y) classes)
               end = Ok T ∧ (0 ≤ T)%Z ∧
               match target_size with
               | Some t => T = t
               | None => ∃ Tn : nat, T = Z.of_nat Tn ∧
                           second_largest Tn (map (λ c, count c y) classes)
               end) as (T & -> & HT0 & HT).
  { destruct target_size as [t|].
    - exists t. done.
    - destruct (default_target_size_ok (map (λ c, count c y) classes))
        as (Tn & Hrun & Hsl); [by rewrite length_map|].
      exists (Z.of_nat Tn). split; [done|]. split; [lia|]. by exists Tn. }
  cbn [mbind result_bind].
  destruct (balance_loop_ok y T classes [] g HT0) as (sels & g1 & -> & Hsels).
  cbn [mbind result_bind app].
  pose proof (np_random_shuffle_Permutation (concat sels) g1) as Hperm.
  destruct (np_random_shuffle (concat sels) g1) as [idx g2]. cbn [fst] in Hperm.
  assert (Forall (λ i, i < length y) idx) as Hin.
  { apply Forall_forall. intros i Hi. rewrite Hperm in Hi.
    destruct (selections_label _ _ _ _ _ Hsels Hi) as (cls & _ & Hy).
    by apply lookup_lt_Some in Hy. }
  destruct (np_take_ok X idx) as (Xb & -> & HXb).
  { eapply Forall_impl; [exact Hin|]. intros i Hi. simpl in Hi. lia. }
  destruct (np_take_ok y idx Hin) as (yb & -> & Hyb).
  cbn [mbind result_bind]. rewrite map_torch_long.
  exists Xb, yb, g2, idx, T. split; [done|]. split.
  { destruct target_size as [t|]; [done|].
    destruct HT as (Tn & -> & Hsl). exists Tn. split; [done|].
    by exists classes. }
  split; [|split; [done|split; [done|]]].
  - rewrite Hperm. by eapply selections_NoDup.
  - intros c. rewrite Hperm.
    rewrite (selections_count y T classes sels c Hnd Hsels).
    destruct (decide (c ∈ classes)) as [Hc|Hc].
    + rewrite decide_True by by apply Hmem. done.
    + rewrite decide_False; [done|]. by rewrite <- Hmem.
Qed.
End Balance.

(** ** [balance_classes]: the claims *)

Section BalanceTheorems.
Local Open Scope nat_scope.
Context {sample fsample : Type}.
Variable as_float32 : sample → fsample.
Implicit Types (X : list sample) (y : list Z) (c : Z).

Lemma two_classes_unique y a b :
  a ∈ y → b ∈ y → a ≠ b → 2 ≤ length (np_unique y).1.
Proof.
  intros Ha Hb Hne. destruct (np_unique_classes y) as [_ Hmem].
  apply Hmem in Ha, Hb.
  destruct (np_unique y).1 as [|u [|u' us]]; simpl; [|..|lia].
  - by apply elem_of_nil in Ha.
  - apply list_elem_of_singleton in Ha, Hb. congruence.
Qed.

Lemma one_class_unique y :
  (∀ a b, a ∈ y → b ∈ y → a = b) → length (np_unique y).1 < 2.
Proof.
  intros Hone. destruct (np_unique_classes y) as [Hnd Hmem].
  destruct (np_unique y).1 as [|u [|u' us]]; simpl; [lia..|].
  exfalso. apply NoDup_cons in Hnd as [Hu _]. apply Hu.
  rewrite (Hone u u'); [left|apply Hmem; left|apply Hmem; right; left].
Qed.

Lemma balance_classes_default_raises X y g :
  length (np_unique y).1 < 2 → balance_classes as_float32 X y None g = Raise IndexError.
Proof.
  intros Hlen. unfold balance_classes.
  pose proof (np_unique_counts y) as Hcounts.
  destruct (np_unique y) as [classes counts]. cbn [fst snd] in *. subst counts.
  rewrite default_target_size_raises; [done|by rewrite length_map].
Qed.

(** C3: with two or more classes in [y] (and, when [target_size] is given,
    a non-negative one) [balance_classes] returns a dataset in which every
    class [c] of [y] occurs [min(count(c), T)] times; [T] is the argument,
    or the second-largest class count when there is none.  Classes of at
    most [T] samples keep their number and no count grows. *)
Theorem balance_classes_counts X y (target_size : option Z) g :
  length X = length y →
  (∃ a b, a ∈ y ∧ b ∈ y ∧ a ≠ b) →
  (∀ t, target_size = Some t → (0 ≤ t)%Z) →
  ∃ Xb yb g' T,
    balance_classes as_float32 X y target_size g = Ok (Xb, yb, g') ∧
    target_of y target_size T ∧
    length Xb = length yb ∧
    (∀ c, c ∈ y →
       Z.of_nat (count c yb) = Z.min (Z.of_nat (count c y)) T ∧
       ((Z.of_nat (count c y) ≤ T)%Z → count c yb = count c y)) ∧
    (∀ c, count c yb ≤ count c y).
Proof.
  intros Hlen (a & b & Ha & Hb & Hne) Htarget.
  destruct (balance_classes_ok as_float32 X y target_size g)
    as (Xb & yb & g' & idx & T & Hrun & HT & Hnd & HXb & Hyb & Hcount).
  { lia. }
  { destruct target_size as [t|]; [by apply Htarget|].
    by apply (two_classes_unique y a b). }
  exists (map as_float32 Xb), yb, g', T. split; [done|]. split; [done|].
  split; [|split].
  - apply Forall2_length in HXb, Hyb. rewrite length_map. congruence.
  - intros c Hc. specialize (Hcount c).
    rewrite decide_True, <- (count_taken y idx yb c Hyb) in Hcount by done.
    split; [done|lia].
  - intros c. specialize (Hcount c).
    rewrite <- (count_taken y idx yb c Hyb) in Hcount.
    destruct (decide (c ∈ y)); lia.
Qed.

(** C9: the output of [balance_classes] is a selection of input samples,
    converted to float32: output position [j] holds the converted row and
    the label of input position [idx[j]], and no input position is used
    twice. *)
Theorem balance_classes_selects X y (target_size : option Z) g :
  length X = length y →
  (target_size = None → ∃ a b, a ∈ y ∧ b ∈ y ∧ a ≠ b) →
  (∀ t, target_size = Some t → (0 ≤ t)%Z) →
  ∃ Xb yb g' (idx : list nat),
    balance_classes as_float32 X y target_size g = Ok (Xb, yb, g') ∧
    NoDup idx ∧ length idx = length Xb ∧ length yb = length Xb ∧
    ∀ j, j < length Xb →
      ∃ i x l, idx !! j = Some i ∧
               X !! i = Some x ∧ y !! i = Some l ∧
               Xb !! j = Some (as_float32 x) ∧ yb !! j = Some l.
Proof.
  intros Hlen Hnone Htarget.
  destruct (balance_classes_ok as_float32 X y target_size g)
    as (Xb & yb & g' & idx & T & Hrun & HT & Hnd & HXb & Hyb & Hcount).
  { lia. }
  { destruct target_size as [t|]; [by apply Htarget|].
    destruct Hnone as (a & b & Ha & Hb & Hne); [done|].
    by apply (two_classes_unique y a b). }
  exists (map as_float32 Xb), yb, g', idx. split; [done|]. split; [done|].
  pose proof (Forall2_length _ _ _ HXb) as HlX.
  pose proof (Forall2_length _ _ _ Hyb) as Hly.
  rewrite length_map.
  split; [done|]. split; [congruence|].
  intros j Hj.
  destruct (lookup_lt_is_Some_2 Xb j Hj) as [x Hx].
  destruct (Forall2_lookup_r _ _ _ _ _ HXb Hx) as (i & Hi & HXi).
  destruct (Forall2_lookup_l _ _ _ _ _ Hyb Hi) as (l & Hl & Hyi).
  exists i, x, l. by rewrite list_lookup_fmap, Hx.
Qed.

(** C10: without a [target_size], [balance_classes] on labels of a single
    class (or none) raises [IndexError] at [sorted_counts[-2]]; with two
    distinct classes the default target exists and the call returns. *)
Theorem balance_classes_default_needs_two_classes X y g :
  ((∀ a b, a ∈ y → b ∈ y → a = b) →
     balance_classes as_float32 X y None g = Raise IndexError) ∧
  (length X = length y → (∃ a b, a ∈ y ∧ b ∈ y ∧ a ≠ b) →
     ∃ r, balance_classes as_float32 X y None g = Ok r).
Proof.
  split.
  - intros Hone. by apply balance_classes_default_raises, one_class_unique.
  - intros Hlen (a & b & Ha & Hb & Hne).
    destruct (balance_classes_ok as_float32 X y None g)
      as (Xb & yb & g' & _ & _ & Hrun & _); [lia| |by eexists].
    by apply (two_classes_unique y a b).
Qed.
End BalanceTheorems.

(** A run of [balance_classes] on seven samples of three classes. *)
Lemma balance_classes_counts_witness :
  ∃ Xb yb g' T,
    balance_classes float32_of_int [10;11;12;13;14;15;16] [0;0;0;0;1;1;2] None demo_rng
    = Ok (Xb, yb, g') ∧
    target_of [0;0;0;0;1;1;2] None T ∧
    length Xb = length yb ∧
    (∀ c, c ∈ [0;0;0;0;1;1;2] →
       Z.of_nat (count c yb) = Z.min (Z.of_nat (count c [0;0;0;0;1;1;2])) T ∧
       ((Z.of_nat (count c [0;0;0;0;1;1;2]) ≤ T)%Z →
        count c yb = count c [0;0;0;0;1;1;2])) ∧
    (∀ c, le (count c yb) (count c [0;0;0;0;1;1;2])).
Proof.
  apply (balance_classes_counts float32_of_int
           [10;11;12;13;14;15;16] [0;0;0;0;1;1;2] None demo_rng).
  - reflexivity.
  - exists 0, 1. split; [|split]; [repeat constructor..|lia].
  - intros t Ht. discriminate Ht.
Defined.

Lemma balance_classes_selects_witness :
  ∃ Xb yb g' (idx : list nat),
    balance_classes float32_of_int [10;11;12;13;14;15;16] [0;0;0;0;1;1;2] (Some 1) demo_rng
    = Ok (Xb, yb, g') ∧
    NoDup idx ∧ length idx = length Xb ∧ length yb = length Xb ∧
    ∀ j, (j < length Xb)%nat →
      ∃ i x l, idx !! j = Some i ∧
               [10;11;12;13;14;15;16] !! i = Some x ∧
               [0;0;0;0;1;1;2] !! i = Some l ∧
               Xb !! j = Some (float32_of_int x) ∧ yb !! j = Some l.
Proof.
  apply (balance_classes_selects float32_of_int
           [10;11;12;13;14;15;16] [0;0;0;0;1;1;2] (Some 1) demo_rng).
  - reflexivity.
  - intros Ht. discriminate Ht.
  - intros t Ht. injection Ht as <-. lia.
Defined.

(** One row of an integer tensor: 16777217 has 25 significant bits and
    float32 holds 24, so the row that comes out is not a row that went in. *)
Lemma balance_classes_selects_counterexample :
  ∃ Xb yb g',
    balance_classes (map float32_of_int) [[16777217; 3]] [0] (Some 1) demo_rng
    = Ok (Xb, yb, g') ∧
    Xb !! 0%nat = Some [16777216; 3] ∧
    ¬ ∃ (i : nat) x, [[16777217; 3]] !! i = Some x ∧ Xb !! 0%nat = Some x.
Proof.
  eexists _, _, _. split; [vm_compute; reflexivity|]. split; [reflexivity|].
  intros (i & x & Hi & Hx). destruct i as [|i]; [|done].
  cbn in Hi, Hx. congruence.
Qed.

Lemma balance_classes_default_needs_two_classes_witness :
  balance_classes float32_of_int [10;11;12] [3;3;3] None demo_rng = Raise IndexError ∧
  ∃ r, balance_classes float32_of_int [10;11;12] [3;1;3] None demo_rng = Ok r.
Proof.
  split.
  - apply (proj1 (balance_classes_default_needs_two_classes float32_of_int
                    [10;11;12] [3;3;3] demo_rng)).
    intros a b Ha Hb.
    assert (∀ v, v ∈ [3;3;3] → v = 3) as H3.
    { intros v Hv. repeat (apply elem_of_cons in Hv as [->|Hv]; [done|]).
      by apply elem_of_nil in Hv. }
    by rewrite (H3 a Ha), (H3 b Hb).
  - apply (proj2 (balance_classes_default_needs_two_classes float32_of_int
                    [10;11;12] [3;1;3] demo_rng)).
    + reflexivity.
    + exists 3, 1. split; [|split]; [repeat constructor..|lia].
Defined.

Example balance_classes_negative_target :
  balance_classes float32_of_int [10;11;12] [3;1;3] (Some (-1)) demo_rng = Raise ValueError.
Proof. reflexivity. Qed.

(** ** A run of [prepare_train_test_data] *)

Example prepare_train_test_data_demo :
  (λ r, (r.1.1.2, r.1.2, r.2)) <$>
    (prepare_train_test_data (F64 := binary64) id id demo_rng demo_rng
       (one_file_fs demo_labels_01) []).2
  = Ok ([0; 1], [0; 1], [1%Q; 1%Q]).
Proof. vm_compute. reflexivity. Qed.

(** ** Class weights *)

Section Weights.
Local Open Scope nat_scope.
Context {f64 : Type} {F64 : Float64 f64}.
Implicit Types (y classes : list Z) (c v : Z).

Lemma index_of_Some v classes k :
  index_of v classes = Some k → classes !! k = Some v.
Proof.
  revert k. induction classes as [|c classes IH]; intros k; simpl; [done|].
  case_decide as Hc; [intros [= <-]; by subst|].
  destruct (index_of v classes) as [k'|]; [|done].
  intros [= <-]. by apply IH.
Qed.

Lemma index_of_elem v classes : v ∈ classes → is_Some (index_of v classes).
Proof.
  induction classes as [|c classes IH]; [by intros ?%elem_of_nil|].
  intros Hv. simpl. case_decide as Hc; [done|].
  apply elem_of_cons in Hv as [->|Hv]; [done|].
  destruct (IH Hv) as [k ->]. done.
Qed.

Lemma label_transform_loop classes vs acc :
  Forall (λ v, v ∈ classes) vs →
  ∃ ks, Forall2 (λ v k, classes !! k = Some v) vs ks ∧
        for_each (label_transform classes) vs acc = Ok (acc ++ ks).
Proof.
  intros Hall. revert acc. induction Hall as [|v vs Hv _ IH]; intros acc.
  - exists []. split; [constructor|]. simpl. by rewrite app_nil_r.
  - destruct (index_of_elem v classes Hv) as [k Hk].
    destruct (IH (acc ++ [k])) as (ks & Hks & Hrun).
    exists (k :: ks). split.
    + constructor; [by apply index_of_Some|done].
    + assert (label_transform classes acc v = Ok (acc ++ [k])) as Hstep
        by (unfold label_transform; by rewrite Hk).
      cbn [for_each]. rewrite Hstep. cbn [mbind result_bind].
      rewrite Hrun. by rewrite <- app_assoc.
Qed.

(** Positions that read a duplicate-free list back are [0, 1, ...]. *)
Lemma positions_of_self {A : Type} (l : list A) (ks : list nat) :
  NoDup l → Forall2 (λ x k, l !! k = Some x) l ks → ks = seq 0 (length l).
Proof.
  intros Hnd Hall. apply list_eq. intros j.
  destruct (decide (j < length l)) as [Hj|Hj].
  - rewrite lookup_seq_lt by done.
    destruct (lookup_lt_is_Some_2 l j Hj) as [x Hx].
    destruct (Forall2_lookup_l _ _ _ _ _ Hall Hx) as (k & -> & Hk).
    f_equal. exact (NoDup_lookup l k j x Hnd Hk Hx).
  - rewrite lookup_seq_ge by lia. apply lookup_ge_None.
    apply Forall2_length in Hall. lia.
Qed.

Lemma np_take_all {A : Type} (l : list A) : np_take l (seq 0 (length l)) = Ok l.
Proof.
  destruct (np_take_ok l (seq 0 (length l))) as (out & -> & Hall).
  { apply Forall_forall. intros i Hi. apply elem_of_seq in Hi. lia. }
  f_equal. apply list_eq. intros j.
  destruct (decide (j < length l)) as [Hj|Hj].
  - assert (seq 0 (length l) !! j = Some j) as Hs by by rewrite lookup_seq_lt.
    destruct (Forall2_lookup_l _ _ _ _ _ Hall Hs) as (x & -> & Hx). done.
  - apply Forall2_length in Hall. rewrite length_seq in Hall.
    rewrite !(proj2 (lookup_ge_None _ _)) by lia. done.
Qed.

Lemma map_positions {A B : Type} (f : nat → B) (g : A → B) (l : list A) :
  (∀ k x, l !! k = Some x → f k = g x) → map f (seq 0 (length l)) = map g l.
Proof.
  intros Hfg. apply list_eq. intros j. rewrite !list_lookup_fmap.
  destruct (decide (j < length l)) as [Hj|Hj].
  - rewrite lookup_seq_lt by done.
    destruct (lookup_lt_is_Some_2 l j Hj) as [x Hx]. rewrite Hx. simpl.
    f_equal. by apply Hfg.
  - rewrite lookup_seq_ge by lia. by rewrite (proj2 (lookup_ge_None l j)) by lia.
Qed.

Lemma encoded_count classes y (y_ind : list nat) k c :
  NoDup classes → classes !! k = Some c →
  Forall2 (λ v k', classes !! k' = Some v) y y_ind →
  length (filter (λ j, j = k) y_ind) = count c y.
Proof.
  intros Hnd Hk. induction 1 as [|v k' y y_ind Hv _ IH]; [done|].
  rewrite count_cons, filter_cons, <- IH.
  destruct (decide (v = c)) as [->|Hne].
  - rewrite decide_True; [done|]. exact (NoDup_lookup classes k' k c Hnd Hv Hk).
  - rewrite decide_False; [done|]. intros ->. congruence.
Qed.

Lemma np_bincount_nonempty (x : list nat) :
  x ≠ [] →
  np_bincount x
  = map (λ k, length (filter (λ j, j = k) x)) (seq 0 (S (max_list x))).
Proof. by destruct x. Qed.

Lemma np_bincount_encoded classes y (y_ind : list nat) :
  NoDup classes → (∀ c, c ∈ classes ↔ c ∈ y) →
  Forall2 (λ v k, classes !! k = Some v) y y_ind →
  np_bincount y_ind = map (λ c, count c y) classes.
Proof.
  intros Hnd Hmem Hall.
  destruct (decide (y_ind = [])) as [->|Hne].
  { apply Forall2_nil_inv_r in Hall as ->.
    destruct classes as [|c ?]; [done|].
    exfalso. apply (elem_of_nil c), Hmem. left. }
  rewrite np_bincount_nonempty by done.
  assert (S (max_list y_ind) = length classes) as ->.
  { pose proof (max_list_elem_of y_ind Hne) as Hmax.
    apply list_elem_of_lookup_1 in Hmax as [j Hj].
    destruct (Forall2_lookup_r _ _ _ _ _ Hall Hj) as (v & _ & Hv).
    apply lookup_lt_Some in Hv.
    destruct (lookup_lt_is_Some_2 classes (length classes - 1)) as [c Hc]; [lia|].
    assert (c ∈ y) as Hcy by (apply Hmem; by eapply list_elem_of_lookup_2).
    apply list_elem_of_lookup_1 in Hcy as [i Hi].
    destruct (Forall2_lookup_l _ _ _ _ _ Hall Hi) as (k & Hk & Hck).
    assert (k = length classes - 1) as ->
      by exact (NoDup_lookup classes _ _ c Hnd Hck Hc).
    apply list_elem_of_lookup_2, max_list_elem_of_le in Hk. lia. }
  apply map_positions. intros k c Hk. by eapply encoded_count.
Qed.

Lemma compute_class_weight_unique y :
  compute_class_weight (np_unique y).1 y
  = Ok (map (balanced_weight y (length (np_unique y).1)) (np_unique y).1).
Proof.
  unfold compute_class_weight.
  destruct (np_unique_classes y) as [Hnd Hmem].
  set (classes := (np_unique y).1) in *.
  destruct (label_transform_loop classes y []) as (y_ind & Hy_ind & ->).
  { apply Forall_forall. intros v Hv. by apply Hmem. }
  cbn [mbind result_bind app].
  replace (forallb (λ c, bool_decide (c ∈ classes)) classes) with true; last first.
  { symmetry. apply forallb_forall. intros c Hc.
    by apply bool_decide_eq_true, list_elem_of_In. }
  cbn [negb].
  destruct (label_transform_loop classes classes []) as (ks & Hks & ->).
  { by apply Forall_forall. }
  cbn [mbind result_bind app].
  rewrite (positions_of_self classes ks Hnd Hks).
  rewrite (np_bincount_encoded classes y y_ind Hnd Hmem Hy_ind).
  rewrite map_map.
  change (np_take (map (balanced_weight y (length classes)) classes)
                  (seq 0 (length classes))
          = Ok (map (balanced_weight y (length classes)) classes)).
  generalize (balanced_weight y (length classes)). intros w.
  rewrite <- (length_map w classes). apply np_take_all.
Qed.
End Weights.

(** [np.unique] lists the classes in ascending order. *)
Lemma StronglySorted_le_lt (l : list Z) :
  StronglySorted Z.le l → NoDup l → StronglySorted Z.lt l.
Proof.
  induction 1 as [|c l Hsorted IH Hall]; intros Hnd; constructor.
  - apply IH. by apply NoDup_cons in Hnd as [_ Hnd].
  - apply NoDup_cons in Hnd as [Hc _].
    rewrite Forall_forall in Hall. apply Forall_forall. intros v Hv.
    specialize (Hall v Hv). assert (v ≠ c) by (intros ->; done). lia.
Qed.

Lemma np_unique_ascending (y : list Z) : StronglySorted Z.lt (np_unique y).1.
Proof.
  apply StronglySorted_le_lt; [|apply np_unique_classes].
  unfold np_unique. cbn [fst]. apply StronglySorted_merge_sort; apply _.
Qed.

(** ** [prepare_train_test_data]: the class weights *)

Section PipelineWeights.
Context {cell f32 f64 : Type} {F64 : Float64 f64}.
Variable as_float32 : cell → f32.
Variable as_long : cell → Z.
Variable global_rng seed42 : rng.

(** C5: the class weights that [prepare_train_test_data] returns are those
    of the ['balanced'] scheme over the balanced labels, one per class and in
    ascending order of the classes: the weight of class [c] is
    [N / (K * count(c))] as double precision computes it, with [N] the number
    of balanced samples and [K] the number of distinct classes among them. *)
Theorem class_weights_balanced (fs : filesystem cell) (log log' : list string)
    X_train X_test y_train y_test (class_weights : list f64) :
  prepare_train_test_data as_float32 as_long global_rng seed42 fs log
  = (log', Ok (X_train, X_test, y_train, y_test, class_weights)) →
  ∃ features labels X y X_balanced y_balanced g' classes,
    load_data_from_files fs log = (log', Ok (features, labels)) ∧
    prepare_data as_float32 as_long (rows features) labels 20 1 = Ok (X, y) ∧
    balance_classes id X y None global_rng = Ok (X_balanced, y_balanced, g') ∧
    StronglySorted Z.lt classes ∧ (∀ c, c ∈ classes ↔ c ∈ y_balanced) ∧
    class_weights = map (balanced_weight y_balanced (length classes)) classes.
Proof.
  unfold prepare_train_test_data, io_bind, io_lift.
  destruct (load_data_from_files fs log) as [log1 [[features labels]|e]];
    [|discriminate].
  unfold prepare_loaded, default_window_size, default_stride.
  destruct (prepare_data as_float32 as_long (rows features) labels 20 1)
    as [[X y]|e] eqn:Hprep; [|discriminate].
  cbn [mbind result_bind].
  destruct (balance_classes id X y None global_rng)
    as [[[X_balanced y_balanced] g']|e] eqn:Hbal; [|discriminate].
  cbn [mbind result_bind].
  destruct (np_unique_classes y_balanced) as [_ Hmem].
  pose proof (np_unique_ascending y_balanced) as Hsorted.
  rewrite compute_class_weight_unique.
  destruct (np_unique y_balanced) as [unique_labels counts]. cbn [fst] in *.
  destruct (stratified_split seed42 X_balanced y_balanced unique_labels)
    as [[[[Xtr Xte] ytr] yte]|e]; [|discriminate].
  cbn [mbind result_bind]. intros [= <- <- <- <- <- <-].
  by exists features, labels, X, y, X_balanced, y_balanced, g', unique_labels.
Qed.
End PipelineWeights.

(** The run on one file of 28 rows with the labels 0, 1 and 2: eight
    balanced samples, three of class 0, three of class 1 and two of class 2;
    the weights are the doubles nearest to 8/9, 8/9 and 4/3. *)
Lemma class_weights_balanced_witness :
  ∃ features labels X y X_balanced y_balanced g' classes,
    load_data_from_files (one_file_fs demo_labels_012) []
    = ([demo_path_join BASE_DATA_PATH "run1.csv"], Ok (features, labels)) ∧
    prepare_data (@id Z) (@id Z) (rows features) labels 20 1 = Ok (X, y) ∧
    balance_classes id X y None demo_rng = Ok (X_balanced, y_balanced, g') ∧
    StronglySorted Z.lt classes ∧ (∀ c, c ∈ classes ↔ c ∈ y_balanced) ∧
    [(2001599834386887 # 2251799813685248)%Q;
     (2001599834386887 # 2251799813685248)%Q;
     (6004799503160661 # 4503599627370496)%Q]
    = map (balanced_weight (F64 := binary64) y_balanced (length classes))
          classes.
Proof.
  eapply (class_weights_balanced (F64 := binary64) (@id Z) (@id Z)
            demo_rng demo_rng (one_file_fs demo_labels_012) []).
  vm_compute. reflexivity.
Defined.

(** ** [prepare_train_test_data]: classes that are not numbered [0 .. K-1] *)

(** C4: the split by class on one file whose rows carry the labels 0 and 2
    only.  The loop over [range(len(unique_labels))] asks for the classes 0
    and 1, finds class 1 empty, and [train_test_split] raises: the samples of
    the classes present are not split. *)
Theorem prepare_train_test_data_classes_0_2 :
  (prepare_train_test_data (F64 := binary64) (@id Z) (@id Z) demo_rng demo_rng
     (one_file_fs demo_labels_02) []).2
  = Raise ValueError.
Proof. vm_compute. reflexivity. Qed.

(** The same file up to the split: balancing returns two samples of each of
    the classes 0 and 2. *)
Example balanced_labels_0_2 :
  (λ r, r.1.2) <$>
    (features_labels ← (load_data_from_files (one_file_fs demo_labels_02) []).2;
     X_y ← prepare_data (@id Z) (@id Z) (rows features_labels.1) features_labels.2 20 1;
     balance_classes id X_y.1 X_y.2 None demo_rng)
  = Ok [0; 0; 2; 2].
Proof. vm_compute. reflexivity. Qed.

(** ** The split by class *)

Section SplitFacts.
Local Open Scope nat_scope.
Implicit Types (y : list Z) (i c : Z).

Lemma n_test_of_small n : n < 2 → n - n_test_of n = 0.
Proof.
  intros Hn. unfold n_test_of.
  destruct n as [|[|n]]; [done|done|lia].
Qed.

Lemma n_test_of_bounds n : 2 ≤ n → 1 ≤ n_test_of n ∧ n_test_of n < n.
Proof.
  intros Hn. unfold n_test_of.
  assert (1 ≤ (Z.of_nat n + 4) / 5)%Z by (apply Z.div_le_lower_bound; lia).
  assert ((Z.of_nat n + 4) / 5 < Z.of_nat n)%Z
    by (apply Z.div_lt_upper_bound; lia).
  lia.
Qed.

Lemma mask_nonzero_eq_mask y i : mask_nonzero (eq_mask y i) = np_where_eq y i.
Proof.
  unfold mask_nonzero, np_where_eq, eq_mask. rewrite length_map.
  apply filter_ext_elem. intros j _. rewrite list_lookup_fmap.
  destruct (y !! j) as [v|]; simpl; [|done].
  split; intros [= Hv]; f_equal.
  - by apply bool_decide_eq_true in Hv.
  - by apply bool_decide_eq_true.
Qed.

Lemma mask_index_class {A : Type} (X : list A) y i :
  length X = length y →
  ∃ Xi, mask_index X (eq_mask y i) = Ok Xi ∧
        Forall2 (λ j x, X !! j = Some x) (np_where_eq y i) Xi.
Proof.
  intros Hlen. unfold mask_index, eq_mask at 1.
  rewrite length_map, <- Hlen, Nat.eqb_refl, mask_nonzero_eq_mask.
  apply np_take_ok, Forall_forall. intros j Hj.
  apply elem_of_np_where_eq, lookup_lt_Some in Hj. lia.
Qed.

(** Positions into a selection, read through the selection. *)
Lemma taken_taken {A : Type} (X Xi : list A) (P ks js : list nat) (out : list A) :
  Forall2 (λ j x, X !! j = Some x) P Xi →
  Forall2 (λ k j, P !! k = Some j) ks js →
  Forall2 (λ k x, Xi !! k = Some x) ks out →
  Forall2 (λ j x, X !! j = Some x) js out.
Proof.
  intros HP Hks Hout. apply Forall2_same_length_lookup. split.
  - apply Forall2_length in Hks, Hout. congruence.
  - intros m j x Hj Hx.
    destruct (Forall2_lookup_r _ _ _ _ _ Hks Hj) as (k & Hk & HPk).
    pose proof (Forall2_lookup_lr _ _ _ _ _ _ Hout Hk Hx) as HXi.
    exact (Forall2_lookup_lr _ _ _ _ _ _ HP HPk HXi).
Qed.

Lemma taken_Permutation (P ks js : list nat) :
  Forall2 (λ k j, P !! k = Some j) ks js → ks ≡ₚ seq 0 (length P) → js ≡ₚ P.
Proof.
  intros Hall Hperm.
  assert (js = (λ k, P !!! k) <$> ks) as ->.
  { clear Hperm. induction Hall as [|k j ks js Hk _ IH]; [done|].
    cbn [fmap list_fmap].
    f_equal; [|exact IH]. symmetry. by apply list_lookup_total_correct. }
  rewrite Hperm.
  replace ((λ k, P !!! k) <$> seq 0 (length P)) with P; [done|].
  apply list_eq. intros j.
  rewrite list_lookup_fmap. destruct (decide (j < length P)) as [Hj|Hj].
  - rewrite lookup_seq_lt by done. simpl.
    by apply list_lookup_lookup_total_lt.
  - rewrite lookup_seq_ge by lia. by rewrite (proj2 (lookup_ge_None P j)) by lia.
Qed.

Lemma train_test_split_small {A B : Type} seed (X : list A) (y : list B) :
  length X < 2 → train_test_split seed X y = Raise ValueError.
Proof.
  intros Hlen. unfold train_test_split.
  destruct (negb (Nat.eqb (length X) (length y))); [done|].
  by rewrite n_test_of_small, Nat.eqb_refl.
Qed.

Lemma train_test_split_ok {A B : Type} seed (X : list A) (y : list B) :
  length X = length y → 2 ≤ length X →
  ∃ ks_train ks_test Xtr Xte ytr yte,
    train_test_split seed X y = Ok (Xtr, Xte, ytr, yte) ∧
    ks_test ++ ks_train ≡ₚ seq 0 (length X) ∧
    length ks_test = n_test_of (length X) ∧
    Forall2 (λ k x, X !! k = Some x) ks_train Xtr ∧
    Forall2 (λ k x, X !! k = Some x) ks_test Xte ∧
    Forall2 (λ k l, y !! k = Some l) ks_train ytr ∧
    Forall2 (λ k l, y !! k = Some l) ks_test yte.
Proof.
  intros Hlen Hn. unfold train_test_split.
  rewrite <- Hlen, Nat.eqb_refl. cbn [negb].
  destruct (n_test_of_bounds (length X) Hn) as [Ht1 Ht2].
  destruct (Nat.eqb_spec (length X - n_test_of (length X)) 0) as [|_]; [lia|].
  pose proof (np_random_permutation_spec (length X) seed) as Hperm.
  set (perm := (np_random_permutation (length X) seed).1) in *.
  assert (length perm = length X) as Hlp by by rewrite Hperm, length_seq.
  set (ks_test := take (n_test_of (length X)) perm).
  assert (take (length X - n_test_of (length X)) (drop (n_test_of (length X)) perm)
          = drop (n_test_of (length X)) perm) as ->
    by (apply take_ge; rewrite length_drop; lia).
  set (ks_train := drop (n_test_of (length X)) perm).
  assert (ks_test ++ ks_train = perm) as Hsplit by apply take_drop.
  assert (Forall (λ k, k < length X) perm) as Hin.
  { apply Forall_forall. intros k Hk. rewrite Hperm in Hk.
    apply elem_of_seq in Hk. lia. }
  rewrite <- Hsplit in Hin. apply Forall_app in Hin as [Hte Htr].
  destruct (np_take_ok X ks_train Htr) as (Xtr & -> & HXtr).
  destruct (np_take_ok X ks_test Hte) as (Xte & -> & HXte).
  rewrite Hlen in Hte, Htr.
  destruct (np_take_ok y ks_train Htr) as (ytr & -> & Hytr).
  destruct (np_take_ok y ks_test Hte) as (yte & -> & Hyte).
  exists ks_train, ks_test, Xtr, Xte, ytr, yte.
  split; [done|]. split; [by rewrite Hsplit|]. split; [|done].
  unfold ks_test. rewrite length_take. lia.
Qed.
End SplitFacts.

(** A list comprehension whose elements all evaluate. *)
Lemma for_each_collect {A B : Type} (f : A → result B) xs ys acc :
  Forall2 (λ x v, f x = Ok v) xs ys →
  for_each (λ acc x, v ← f x; Ok (acc ++ [v])) xs acc = Ok (acc ++ ys).
Proof.
  intros Hall. revert acc. induction Hall as [|x v xs ys Hx _ IH]; intros acc.
  - simpl. by rewrite app_nil_r.
  - cbn [for_each]. rewrite Hx. cbn [mbind result_bind].
    rewrite IH. by rewrite <- app_assoc.
Qed.

Section StratifiedSplit.
Local Open Scope nat_scope.
Context {f32 : Type}.
Variable seed42 : rng.
Local Abbreviation sample := (list (list f32)).
Implicit Types (X : list sample) (y : list Z) (i c : Z).

Lemma split_step_ok X y i Xi yi a1 a2 a3 a4 :
  class_arrays X y i Xi yi → 2 ≤ count i y →
  ∃ o, splits_class X y i o ∧
       split_step seed42 (a1, a2, a3, a4) (Xi, yi)
       = Ok (a1 ++ [co_X_train o], a2 ++ [co_X_test o],
             a3 ++ [co_y_train o], a4 ++ [co_y_test o]).
Proof.
  intros [HXi Hyi] Hcount.
  pose proof (Forall2_length _ _ _ HXi) as HlX.
  pose proof (Forall2_length _ _ _ Hyi) as Hly.
  rewrite length_np_where_eq in HlX, Hly.
  destruct (train_test_split_ok seed42 Xi yi)
    as (ks_tr & ks_te & Xtr & Xte & ytr & yte & Hrun & Hperm & Hlen
        & H1 & H2 & H3 & H4); [congruence|lia|].
  set (P := np_where_eq y i) in *.
  assert (length P = length Xi) as HlP
    by (unfold P; rewrite length_np_where_eq; done).
  assert (Forall (λ k, k < length P) (ks_te ++ ks_tr)) as Hin.
  { apply Forall_forall. intros k Hk. rewrite Hperm in Hk.
    apply elem_of_seq in Hk. lia. }
  apply Forall_app in Hin as [Hin_te Hin_tr].
  destruct (np_take_ok P ks_tr Hin_tr) as (js_tr & _ & Hjs_tr).
  destruct (np_take_ok P ks_te Hin_te) as (js_te & _ & Hjs_te).
  exists (ClassOutcome js_tr js_te Xtr Xte ytr yte). split.
  - split; [|split; [|split; [|split; [|split]]]]; cbn.
    + apply (taken_Permutation P (ks_te ++ ks_tr)).
      * by apply Forall2_app.
      * by rewrite HlP.
    + apply Forall2_length in Hjs_te. rewrite <- Hjs_te, Hlen. by rewrite <- HlX.
    + exact (taken_taken X Xi P ks_tr js_tr Xtr HXi Hjs_tr H1).
    + exact (taken_taken X Xi P ks_te js_te Xte HXi Hjs_te H2).
    + exact (taken_taken y yi P ks_tr js_tr ytr Hyi Hjs_tr H3).
    + exact (taken_taken y yi P ks_te js_te yte Hyi Hjs_te H4).
  - unfold split_step. rewrite Hrun. done.
Qed.

Lemma split_step_small X y i Xi yi acc :
  class_arrays X y i Xi yi → count i y < 2 →
  split_step seed42 acc (Xi, yi) = Raise ValueError.
Proof.
  intros [HXi _] Hcount. apply Forall2_length in HXi.
  rewrite length_np_where_eq in HXi.
  unfold split_step. destruct acc as [[[a1 a2] a3] a4].
  rewrite train_test_split_small; [done|lia].
Qed.

Lemma split_loop_ok X y ids Xcs ycs a1 a2 a3 a4 :
  Forall2 (λ i Xy, class_arrays X y i Xy.1 Xy.2) ids (zip Xcs ycs) →
  Forall (λ i, 2 ≤ count i y) ids →
  ∃ os, Forall2 (splits_class X y) ids os ∧
        for_each (split_step seed42) (zip Xcs ycs) (a1, a2, a3, a4)
        = Ok (a1 ++ map co_X_train os, a2 ++ map co_X_test os,
              a3 ++ map co_y_train os, a4 ++ map co_y_test os).
Proof.
  generalize (zip Xcs ycs). intros cls Hcls. revert a1 a2 a3 a4.
  induction Hcls as [|i [Xi yi] ids cls Hi _ IH]; intros a1 a2 a3 a4 Hcount.
  - exists []. split; [constructor|]. simpl. by rewrite !app_nil_r.
  - apply Forall_cons in Hcount as [Hc Hcount].
    destruct (split_step_ok X y i Xi yi a1 a2 a3 a4 Hi Hc) as (o & Ho & Hstep).
    destruct (IH (a1 ++ [co_X_train o]) (a2 ++ [co_X_test o])
                 (a3 ++ [co_y_train o]) (a4 ++ [co_y_test o]) Hcount)
      as (os & Hos & Hrun).
    exists (o :: os). split; [by constructor|].
    cbn [for_each]. rewrite Hstep. cbn [mbind result_bind]. rewrite Hrun.
    cbn [map]. by rewrite <- !app_assoc.
Qed.

Lemma split_loop_raises X y ids Xcs ycs acc :
  Forall2 (λ i Xy, class_arrays X y i Xy.1 Xy.2) ids (zip Xcs ycs) →
  Exists (λ i, count i y < 2) ids →
  for_each (split_step seed42) (zip Xcs ycs) acc = Raise ValueError.
Proof.
  generalize (zip Xcs ycs). intros cls Hcls. revert acc.
  induction Hcls as [|i [Xi yi] ids cls Hi _ IH]; intros acc Hsmall.
  - by apply Exists_nil in Hsmall.
  - cbn [for_each]. destruct (decide (count i y < 2)) as [Hc|Hc].
    + by rewrite (split_step_small X y i).
    + apply Exists_cons in Hsmall as [?|Hsmall]; [done|].
      destruct acc as [[[a1 a2] a3] a4].
      destruct (split_step_ok X y i Xi yi a1 a2 a3 a4 Hi) as (o & _ & ->); [lia|].
      cbn [mbind result_bind]. by apply IH.
Qed.

(** The two list comprehensions over the class ids. *)
Lemma class_comprehensions X y ids :
  length X = length y →
  ∃ Xcs ycs,
    for_each (λ acc i, X_class ← mask_index X (eq_mask y i); Ok (acc ++ [X_class]))
             ids [] = Ok Xcs ∧
    for_each (λ acc i, y_class ← mask_index y (eq_mask y i); Ok (acc ++ [y_class]))
             ids [] = Ok ycs ∧
    Forall2 (λ i Xy, class_arrays X y i Xy.1 Xy.2) ids (zip Xcs ycs).
Proof.
  intros Hlen.
  assert (∃ Xcs ycs,
            Forall2 (λ i Xi, mask_index X (eq_mask y i) = Ok Xi) ids Xcs ∧
            Forall2 (λ i yi, mask_index y (eq_mask y i) = Ok yi) ids ycs ∧
            Forall2 (λ i Xy, class_arrays X y i Xy.1 Xy.2) ids (zip Xcs ycs))
    as (Xcs & ycs & HX & Hy & Hzip).
  { induction ids as [|i ids (Xcs & ycs & HX & Hy & Hzip)].
    - exists [], []. repeat split; constructor.
    - destruct (mask_index_class X y i Hlen) as (Xi & HXi & HXi').
      destruct (mask_index_class y y i eq_refl) as (yi & Hyi & Hyi').
      exists (Xi :: Xcs), (yi :: ycs).
      split; [by constructor|]. split; [by constructor|].
      constructor; [by split|done]. }
  exists Xcs, ycs. split; [|split; [|done]].
  - by rewrite (for_each_collect (λ i, mask_index X (eq_mask y i)) ids Xcs []).
  - by rewrite (for_each_collect (λ i, mask_index y (eq_mask y i)) ids ycs []).
Qed.

Lemma class_ids (K : nat) :
  py_range 0 (Z.of_nat K) 1 = Ok (map Z.of_nat (seq 0 K)).
Proof.
  unfold py_range. cbn [Z.eqb]. f_equal.
  assert (range_length 0 (Z.of_nat K) 1 = Z.of_nat K) as ->.
  { unfold range_length. cbn [Z.ltb Z.compare].
    destruct (Z.ltb_spec 0 (Z.of_nat K)); [|lia].
    rewrite Z.div_1_r. lia. }
  rewrite Nat2Z.id. apply map_ext. intros k. lia.
Qed.
End StratifiedSplit.

(** ** Positions grouped by class *)

Section ClassPositions.
Local Open Scope nat_scope.
Implicit Types (y ids : list Z) (i c : Z).

Lemma filter_all {A : Type} (P : A → Prop) `{!∀ x, Decision (P x)} (l : list A) :
  (∀ x, x ∈ l → P x) → filter P l = l.
Proof.
  induction l as [|x l IH]; intros Hall; [done|].
  rewrite filter_cons_True by (apply Hall; left).
  f_equal. apply IH. intros x' Hx'. apply Hall. by right.
Qed.

Lemma filter_none {A : Type} (P : A → Prop) `{!∀ x, Decision (P x)} (l : list A) :
  (∀ x, x ∈ l → ¬ P x) → filter P l = [].
Proof.
  induction l as [|x l IH]; intros Hall; [done|].
  rewrite filter_cons_False by (apply Hall; left).
  apply IH. intros x' Hx'. apply Hall. by right.
Qed.

(** Lists of positions, one per class id, each holding positions of its
    class only: how many positions of class [c] there are in all. *)
Lemma class_positions_count y ids (sels : list (list nat)) (f : Z → nat) c :
  NoDup ids →
  Forall2 (λ i sel, (∀ j, j ∈ sel → y !! j = Some i) ∧ length sel = f i) ids sels →
  length (filter (λ j, y !! j = Some c) (concat sels))
  = if decide (c ∈ ids) then f c else 0.
Proof.
  intros Hnd Hall.
  induction Hall as [|i sel ids sels [Hsel Hlen] _ IH]; cbn [concat].
  - rewrite decide_False; [done|apply not_elem_of_nil].
  - apply NoDup_cons in Hnd as [Hi Hnd]. specialize (IH Hnd).
    rewrite filter_app, length_app, IH.
    destruct (decide (c = i)) as [->|Hne].
    + rewrite (decide_True (P := i ∈ i :: ids)) by left.
      rewrite decide_False by done. rewrite filter_all by done. lia.
    + rewrite filter_none by (intros j Hj; rewrite (Hsel j Hj); congruence).
      destruct (decide (c ∈ ids)) as [Hc|Hc].
      * by rewrite decide_True by by right.
      * rewrite decide_False; [done|]. by intros [?|?]%elem_of_cons.
Qed.

Lemma elem_of_class_positions y ids j :
  j ∈ concat (map (np_where_eq y) ids) ↔ ∃ i, i ∈ ids ∧ y !! j = Some i.
Proof.
  induction ids as [|i ids IH]; cbn [map concat].
  - split; [by intros ?%elem_of_nil|]. by intros (i & ?%elem_of_nil & _).
  - rewrite elem_of_app, IH, elem_of_np_where_eq. split.
    + intros [Hj|(i' & Hi' & Hj)]; [exists i|exists i']; split;
        [left|done|by right|done].
    + intros (i' & [->|Hi']%elem_of_cons & Hj); [by left|right; by exists i'].
Qed.

Lemma NoDup_class_positions y ids :
  NoDup ids → NoDup (concat (map (np_where_eq y) ids)).
Proof.
  induction 1 as [|i ids Hi Hnd IH]; cbn [map concat]; [constructor|].
  apply NoDup_app. split; [apply NoDup_np_where_eq|]. split; [|done].
  intros j Hj (i' & Hi' & Hj')%elem_of_class_positions.
  apply elem_of_np_where_eq in Hj. congruence.
Qed.

(** The positions of all classes together are all positions, when every
    label is one of the class ids. *)
Lemma class_positions_cover y ids :
  NoDup ids → (∀ c, c ∈ y → c ∈ ids) →
  concat (map (np_where_eq y) ids) ≡ₚ seq 0 (length y).
Proof.
  intros Hnd Hcover. apply NoDup_Permutation.
  - by apply NoDup_class_positions.
  - apply NoDup_seq.
  - intros j. rewrite elem_of_class_positions, elem_of_seq. split.
    + intros (i & _ & Hj). apply lookup_lt_Some in Hj. lia.
    + intros [_ Hj]. destruct (lookup_lt_is_Some_2 y j) as [v Hv]; [lia|].
      exists v. split; [|done]. by eapply Hcover, list_elem_of_lookup_2.
Qed.

(** When each of [0 .. K-1] occurs in [y], [K] being the number of distinct
    labels, those are all the labels. *)
Lemma labels_are_class_ids y c :
  (∀ k, k < length (np_unique y).1 → Z.of_nat k ∈ y) →
  c ∈ y → c ∈ map Z.of_nat (seq 0 (length (np_unique y).1)).
Proof.
  intros Hids Hc. destruct (np_unique_classes y) as [Hnd Hmem].
  set (classes := (np_unique y).1) in *.
  assert (map Z.of_nat (seq 0 (length classes)) ≡ₚ classes) as ->;
    [|by apply Hmem].
  apply submseteq_length_Permutation.
  - apply NoDup_submseteq.
    + apply (NoDup_fmap_2 Z.of_nat), NoDup_seq.
    + intros v (k & -> & Hk)%list_elem_of_fmap. apply elem_of_seq in Hk.
      apply Hmem, Hids. lia.
  - by rewrite length_map, length_seq.
Qed.
End ClassPositions.

(** ** The split by class, as a whole *)

Section StratifiedSplitTheorems.
Local Open Scope nat_scope.
Context {f32 : Type}.
Variable seed42 : rng.
Local Abbreviation sample := (list (list f32)).
Implicit Types (X : list sample) (y : list Z) (i c : Z)
  (os : list (@class_outcome f32)).

Lemma outcomes_taken X y ids os :
  Forall2 (splits_class X y) ids os →
  Forall2 (λ j x, X !! j = Some x)
          (concat (map co_train os)) (concat (map co_X_train os)) ∧
  Forall2 (λ j x, X !! j = Some x)
          (concat (map co_test os)) (concat (map co_X_test os)) ∧
  Forall2 (λ j l, y !! j = Some l)
          (concat (map co_train os)) (concat (map co_y_train os)) ∧
  Forall2 (λ j l, y !! j = Some l)
          (concat (map co_test os)) (concat (map co_y_test os)).
Proof.
  induction 1 as [|i o ids os (_ & _ & H1 & H2 & H3 & H4) _ (IH1 & IH2 & IH3 & IH4)];
    cbn [map concat].
  - repeat split; constructor.
  - repeat split; by apply Forall2_app.
Qed.

Lemma outcomes_Permutation X y ids os :
  Forall2 (splits_class X y) ids os →
  concat (map co_train os) ++ concat (map co_test os)
  ≡ₚ concat (map (np_where_eq y) ids).
Proof.
  induction 1 as [|i o ids os (Hperm & _) _ IH]; cbn [map concat]; [done|].
  etrans; [|apply Permutation_app; [exact Hperm|exact IH]].
  rewrite (Permutation_app_comm (co_test o) (co_train o)).
  rewrite <- !app_assoc. apply Permutation_app_head.
  rewrite !app_assoc. apply Permutation_app_tail, Permutation_app_comm.
Qed.

Lemma outcomes_sizes X y ids os :
  Forall2 (splits_class X y) ids os →
  Forall2 (λ i sel, (∀ j, j ∈ sel → y !! j = Some i) ∧
                    length sel = n_test_of (count i y)) ids (map co_test os) ∧
  Forall2 (λ i sel, (∀ j, j ∈ sel → y !! j = Some i) ∧
                    length sel = count i y - n_test_of (count i y))
          ids (map co_train os).
Proof.
  induction 1 as [|i o ids os (Hperm & Hlen & _) _ [IH1 IH2]]; cbn [map].
  - split; constructor.
  - assert (∀ j, j ∈ co_test o ++ co_train o → y !! j = Some i) as Hin.
    { intros j Hj. rewrite Hperm in Hj. by apply elem_of_np_where_eq. }
    apply Permutation_length in Hperm.
    rewrite length_app, length_np_where_eq in Hperm.
    split; (constructor; [split|done]).
    + intros j Hj. apply Hin, elem_of_app. by left.
    + done.
    + intros j Hj. apply Hin, elem_of_app. by right.
    + lia.
Qed.

(** X2: when one of the class ids [0 .. K-1] has fewer than two samples, and
    so too when it does not occur at all, the split raises [ValueError]. *)
Theorem stratified_split_raises X y (unique_labels : list Z) :
  length X = length y →
  (∃ k, k < length unique_labels ∧ count (Z.of_nat k) y < 2) →
  stratified_split seed42 X y unique_labels = Raise ValueError.
Proof.
  intros Hlen (k & Hk & Hsmall). unfold stratified_split.
  rewrite class_ids. cbn [mbind result_bind].
  destruct (class_comprehensions X y
              (map Z.of_nat (seq 0 (length unique_labels))) Hlen)
    as (Xcs & ycs & -> & -> & Hcls).
  cbn [mbind result_bind].
  rewrite (split_loop_raises seed42 X y _ Xcs ycs _ Hcls); [done|].
  apply Exists_exists. exists (Z.of_nat k). split; [|done].
  apply list_elem_of_fmap. exists k. split; [done|]. apply elem_of_seq. lia.
Qed.

(** X1: when the classes are numbered [0 .. K-1] and each has two samples or
    more, every position of the balanced data goes to exactly one of the two
    sets, and of every class [ceil(count / 5)] samples go to the test set and
    the others to the training set. *)
Theorem stratified_split_partition X y :
  length X = length y → y ≠ [] →
  (∀ k, k < length (np_unique y).1 → 2 ≤ count (Z.of_nat k) y) →
  ∃ (train test : list nat) X_train X_test y_train y_test,
    stratified_split seed42 X y (np_unique y).1
    = Ok (X_train, X_test, y_train, y_test) ∧
    train ++ test ≡ₚ seq 0 (length y) ∧
    Forall2 (λ j x, X !! j = Some x) train X_train ∧
    Forall2 (λ j x, X !! j = Some x) test X_test ∧
    Forall2 (λ j l, y !! j = Some l) train y_train ∧
    Forall2 (λ j l, y !! j = Some l) test y_test ∧
    ∀ c, c ∈ y →
      count c y_test = n_test_of (count c y) ∧
      count c y_train = count c y - n_test_of (count c y).
Proof.
  intros Hlen Hne Hbig.
  set (K := length (np_unique y).1) in *.
  set (ids := map Z.of_nat (seq 0 K)).
  assert (NoDup ids) as Hnd by apply (NoDup_fmap_2 Z.of_nat), NoDup_seq.
  assert (∀ c, c ∈ y → c ∈ ids) as Hcover.
  { intros c Hc. apply labels_are_class_ids; [|done].
    intros k Hk. apply count_pos. specialize (Hbig k Hk). lia. }
  assert (Forall (λ i, 2 ≤ count i y) ids) as Hcount.
  { apply Forall_forall. intros i (k & -> & Hk)%list_elem_of_fmap.
    apply elem_of_seq in Hk. apply Hbig. lia. }
  unfold stratified_split. fold K. rewrite class_ids. fold ids.
  cbn [mbind result_bind].
  destruct (class_comprehensions X y ids Hlen) as (Xcs & ycs & -> & -> & Hcls).
  cbn [mbind result_bind].
  destruct (split_loop_ok seed42 X y ids Xcs ycs [] [] [] [] Hcls Hcount)
    as (os & Hos & ->).
  cbn [mbind result_bind app].
  assert (os ≠ []) as Hos_ne.
  { intros ->. apply Forall2_nil_inv_r in Hos.
    destruct y as [|v y]; [done|].
    apply (elem_of_nil v). rewrite <- Hos. apply Hcover. left. }
  assert (∀ {A : Type} (proj : class_outcome → list A),
            torch_cat (map proj os) = Ok (concat (map proj os))) as Hcat.
  { intros A proj. destruct os; done. }
  rewrite !Hcat. cbn [mbind result_bind].
  destruct (outcomes_taken X y ids os Hos) as (H1 & H2 & H3 & H4).
  destruct (outcomes_sizes X y ids os Hos) as [Hte Htr].
  exists (concat (map co_train os)), (concat (map co_test os)).
  eexists _, _, _, _. split; [done|].
  split; [|split; [done|split; [done|split; [done|split; [done|]]]]].
  - rewrite (outcomes_Permutation X y ids os Hos).
    by apply class_positions_cover.
  - intros c Hc. apply Hcover in Hc.
    rewrite (count_taken y _ _ c H4), (count_taken y _ _ c H3).
    rewrite (class_positions_count y ids _ _ c Hnd Hte).
    rewrite (class_positions_count y ids _ _ c Hnd Htr).
    by rewrite !decide_True by done.
Qed.
End StratifiedSplitTheorems.

(** Four balanced samples of the classes 0 and 1. *)
Lemma stratified_split_partition_witness :
  ∃ (train test : list nat) X_train X_test y_train y_test,
    stratified_split demo_rng [[[1]]; [[2]]; [[3]]; [[4]]] [0; 1; 0; 1]
      (np_unique [0; 1; 0; 1]).1
    = Ok (X_train, X_test, y_train, y_test) ∧
    train ++ test ≡ₚ seq 0 (length [0; 1; 0; 1]) ∧
    Forall2 (λ j x, [[[1]]; [[2]]; [[3]]; [[4]]] !! j = Some x) train X_train ∧
    Forall2 (λ j x, [[[1]]; [[2]]; [[3]]; [[4]]] !! j = Some x) test X_test ∧
    Forall2 (λ j l, [0; 1; 0; 1] !! j = Some l) train y_train ∧
    Forall2 (λ j l, [0; 1; 0; 1] !! j = Some l) test y_test ∧
    ∀ c, c ∈ [0; 1; 0; 1] →
      count c y_test = n_test_of (count c [0; 1; 0; 1]) ∧
      count c y_train
      = Nat.sub (count c [0; 1; 0; 1]) (n_test_of (count c [0; 1; 0; 1])).
Proof.
  apply (stratified_split_partition demo_rng [[[1]]; [[2]]; [[3]]; [[4]]] [0; 1; 0; 1]).
  - reflexivity.
  - discriminate.
  - intros k Hk. change (length (np_unique [0; 1; 0; 1]).1) with 2%nat in Hk.
    destruct k as [|[|k]]; [vm_compute; lia..|lia].
Defined.

(** Four balanced samples of the classes 0 and 2: class id 1 is empty. *)
Lemma stratified_split_raises_witness :
  stratified_split demo_rng [[[1]]; [[2]]; [[3]]; [[4]]] [0; 2; 0; 2] [0; 2]
  = Raise ValueError.
Proof.
  apply (stratified_split_raises demo_rng [[[1]]; [[2]]; [[3]]; [[4]]] [0; 2; 0; 2] [0; 2]).
  - reflexivity.
  - exists 1%nat. split; [simpl; lia|vm_compute; lia].
Defined.

(** * Part V: further properties of the module *)

(** ** [prepare_data]: short inputs, strides and overlapping windows *)

Section PrepareDataMore.
Context {cell f32 : Type}.
Variable as_float32 : cell → f32.
Variable as_long : cell → Z.

(** The result of [prepare_data] written out: one window and one label per
    start position [k * s]. *)
Lemma prepare_data_explicit (features : list (list cell)) (labels : list cell)
    (w s : Z) :
  length labels = length features →
  1 ≤ w → 1 ≤ s → w ≤ Z.of_nat (length features) →
  ∃ ys,
    Forall2 (λ (k : nat) l,
               labels !! Z.to_nat (Z.of_nat k * s + w - 1) = Some l)
            (seq 0 (Z.to_nat ((Z.of_nat (length features) - w) / s + 1))) ys ∧
    prepare_data as_float32 as_long features labels w s
    = Ok (map (λ k : nat,
                 map (map as_float32)
                     (take (Z.to_nat w)
                           (drop (Z.to_nat (Z.of_nat k * s)) features)))
              (seq 0 (Z.to_nat ((Z.of_nat (length features) - w) / s + 1))),
          map as_long ys).
Proof.
  intros Hlen Hw Hs Hn.
  set (n := Z.of_nat (length features)) in *.
  set (cnt := Z.to_nat ((n - w) / s + 1)).
  assert (Hq : 0 ≤ (n - w) / s) by (apply Z.div_pos; lia).
  assert (Hqs : (n - w) / s * s ≤ n - w)
    by (rewrite Z.mul_comm; apply Z.mul_div_le; lia).
  set (idx := map (λ k : nat, 0 + Z.of_nat k * s) (seq 0 cnt)).
  assert (Hrange : py_range 0 (n - w + 1) s = Ok idx).
  { unfold py_range. destruct (Z.eqb_spec s 0); [lia|].
    rewrite range_length_forward by lia.
    by replace (n - w + 1 - 1) with (n - w) by lia. }
  assert (Hidx : Forall (λ i, 0 ≤ i ∧ i + w ≤ n) idx).
  { apply Forall_forall. intros i Hi. apply list_elem_of_In, in_map_iff in Hi.
    destruct Hi as (k & <- & Hk). apply in_seq in Hk. unfold cnt in Hk.
    assert (Z.of_nat k ≤ (n - w) / s) by lia. nia. }
  destruct (window_loop_inside features labels w idx [] [] Hlen Hw Hidx)
    as (ys & Hys & Hrun).
  exists ys. split.
  - unfold idx in Hys. by apply Forall2_fmap_l in Hys.
  - unfold prepare_data. fold n. rewrite Hrange.
    change (mbind ?f (Ok ?a)) with (f a). cbv beta.
    rewrite Hrun.
    change (mbind ?f (Ok ?a)) with (f a). cbv beta iota. rewrite !app_nil_l.
    rewrite (same_shape_map _ (Z.to_nat w) idx).
    + unfold idx. by rewrite !map_map.
    + intros i Hi. rewrite Forall_forall in Hidx. specialize (Hidx i Hi).
      rewrite length_take, length_drop. unfold n in *. lia.
Qed.

(** X3: with fewer rows than a window needs, [prepare_data] raises nothing
    and returns no window and no label. *)
Theorem prepare_data_short (features : list (list cell)) (labels : list cell)
    (w s : Z) :
  1 ≤ s → Z.of_nat (length features) < w →
  prepare_data as_float32 as_long features labels w s = Ok ([], []).
Proof.
  intros Hs Hn. unfold prepare_data, py_range.
  destruct (Z.eqb_spec s 0); [lia|].
  unfold range_length.
  destruct (Z.ltb_spec 0 s); [|lia].
  destruct (Z.ltb_spec 0 (Z.of_nat (length features) - w + 1)); [lia|].
  reflexivity.
Qed.

(** X4: a stride that is not positive never yields a window: the stride 0
    raises [ValueError], and a negative stride returns an empty result
    whenever the rows would have sufficed for a window. *)
Theorem prepare_data_stride_not_positive (features : list (list cell))
    (labels : list cell) (w s : Z) :
  (s = 0 → prepare_data as_float32 as_long features labels w s = Raise ValueError) ∧
  (s < 0 → w ≤ Z.of_nat (length features) + 1 →
     prepare_data as_float32 as_long features labels w s = Ok ([], [])).
Proof.
  split.
  - intros ->. reflexivity.
  - intros Hs Hn. unfold prepare_data, py_range.
    destruct (Z.eqb_spec s 0); [lia|].
    unfold range_length.
    destruct (Z.ltb_spec 0 s); [lia|].
    destruct (Z.ltb_spec (Z.of_nat (length features) - w + 1) 0); [lia|].
    reflexivity.
Qed.

(** X5: consecutive windows overlap: row [j] of window [k + 1] is row
    [j + s] of window [k], for every [j] with [j + s < w]. *)
Theorem prepare_data_overlap (features : list (list cell)) (labels : list cell)
    (w s : Z) :
  length labels = length features →
  1 ≤ w → 1 ≤ s → w ≤ Z.of_nat (length features) →
  ∃ X y,
    prepare_data as_float32 as_long features labels w s = Ok (X, y) ∧
    ∀ (k j : nat) rows rows',
      X !! k = Some rows → X !! S k = Some rows' →
      (j + Z.to_nat s < Z.to_nat w)%nat →
      is_Some (rows' !! j) ∧ rows' !! j = rows !! (j + Z.to_nat s)%nat.
Proof.
  intros Hlen Hw Hs Hn.
  destruct (prepare_data_explicit features labels w s Hlen Hw Hs Hn)
    as (ys & _ & ->).
  eexists _, _. split; [done|].
  intros k j rows rows' Hk Hk' Hj.
  apply list_lookup_fmap_Some in Hk as (k0 & -> & Hk0).
  apply list_lookup_fmap_Some in Hk' as (k1 & -> & Hk1).
  apply lookup_seq in Hk0 as [-> Hk0]. apply lookup_seq in Hk1 as [-> Hk1].
  cbn [Nat.add] in *.
  assert (Z.of_nat (S k) * s + w ≤ Z.of_nat (length features)) as Hfit.
  { assert (Z.of_nat (S k) ≤ (Z.of_nat (length features) - w) / s) by lia.
    assert ((Z.of_nat (length features) - w) / s * s
            ≤ Z.of_nat (length features) - w)
      by (rewrite Z.mul_comm; apply Z.mul_div_le; lia).
    nia. }
  rewrite !list_lookup_fmap, !lookup_take_lt, !lookup_drop by lia.
  replace (Z.to_nat (Z.of_nat (S k) * s) + j)%nat
    with (Z.to_nat (Z.of_nat k * s) + (j + Z.to_nat s))%nat by lia.
  split; [|done].
  apply fmap_is_Some, lookup_lt_is_Some_2. lia.
Qed.

(** X6: with the stride 1 the windows are [n - w + 1] in number and the
    output labels are the input labels from position [w - 1] on. *)
Theorem prepare_data_stride_one (features : list (list cell)) (labels : list cell)
    (w : Z) :
  length labels = length features →
  1 ≤ w → w ≤ Z.of_nat (length features) →
  ∃ X y,
    prepare_data as_float32 as_long features labels w 1 = Ok (X, y) ∧
    Z.of_nat (length X) = Z.of_nat (length features) - w + 1 ∧
    y = map as_long (drop (Z.to_nat w - 1) labels).
Proof.
  intros Hlen Hw Hn.
  destruct (prepare_data_explicit features labels w 1 Hlen Hw ltac:(lia) Hn)
    as (ys & Hys & ->).
  rewrite Z.div_1_r in *.
  eexists _, _. split; [done|]. split.
  - rewrite length_map, length_seq. lia.
  - f_equal. apply list_eq. intros j.
    pose proof (Forall2_length _ _ _ Hys) as Hl. rewrite length_seq in Hl.
    rewrite lookup_drop.
    destruct (decide (j < Z.to_nat (Z.of_nat (length features) - w + 1))%nat)
      as [Hj|Hj].
    + assert (seq 0 (Z.to_nat (Z.of_nat (length features) - w + 1)) !! j = Some j)
        as Hsj by by rewrite lookup_seq_lt.
      destruct (Forall2_lookup_l _ _ _ _ _ Hys Hsj) as (l & -> & <-).
      f_equal. lia.
    + rewrite !(proj2 (lookup_ge_None _ _)); [done|lia..].
Qed.
End PrepareDataMore.

Lemma prepare_data_short_witness :
  prepare_data (@id Z) (@id Z) [[1];[2];[3]] [10;11;12] 20 1 = Ok ([], []).
Proof.
  apply (prepare_data_short (@id Z) (@id Z) [[1];[2];[3]] [10;11;12] 20 1);
    [lia|simpl; lia].
Defined.

Lemma prepare_data_stride_not_positive_witness :
  prepare_data (@id Z) (@id Z) [[1];[2];[3]] [10;11;12] 2 0 = Raise ValueError ∧
  prepare_data (@id Z) (@id Z) [[1];[2];[3]] [10;11;12] 2 (-1) = Ok ([], []).
Proof.
  split.
  - apply (proj1 (prepare_data_stride_not_positive (@id Z) (@id Z)
                    [[1];[2];[3]] [10;11;12] 2 0)). reflexivity.
  - apply (proj2 (prepare_data_stride_not_positive (@id Z) (@id Z)
                    [[1];[2];[3]] [10;11;12] 2 (-1))); [lia|simpl; lia].
Defined.

Lemma prepare_data_overlap_witness :
  ∃ X y,
    prepare_data (@id Z) (@id Z) [[1];[2];[3];[4];[5]] [10;11;12;13;14] 3 1
    = Ok (X, y) ∧
    ∀ (k j : nat) rows rows',
      X !! k = Some rows → X !! S k = Some rows' →
      (j + Z.to_nat 1 < Z.to_nat 3)%nat →
      is_Some (rows' !! j) ∧ rows' !! j = rows !! (j + Z.to_nat 1)%nat.
Proof.
  apply (prepare_data_overlap (@id Z) (@id Z) [[1];[2];[3];[4];[5]]
           [10;11;12;13;14] 3 1); [reflexivity|lia|lia|simpl; lia].
Defined.

Lemma prepare_data_stride_one_witness :
  ∃ X y,
    prepare_data (@id Z) (@id Z) [[1];[2];[3];[4];[5]] [10;11;12;13;14] 3 1
    = Ok (X, y) ∧
    Z.of_nat (length X) = Z.of_nat (length [[1];[2];[3];[4];[5]]) - 3 + 1 ∧
    y = map (@id Z) (drop (Z.to_nat 3 - 1) [10;11;12;13;14]).
Proof.
  apply (prepare_data_stride_one (@id Z) (@id Z) [[1];[2];[3];[4];[5]]
           [10;11;12;13;14] 3); [reflexivity|lia|simpl; lia].
Defined.

(** ** [load_data_from_files]: what a returned result tells, and what is read *)

Section LoadMore.
Context {cell : Type}.
Variable fs : filesystem cell.

Lemma label_loop_length (k : Z) (rs : list (list cell)) (acc out : list cell) :
  for_each (λ acc r, x ← py_index r k; Ok (acc ++ [x])) rs acc = Ok out →
  length out = (length acc + length rs)%nat.
Proof.
  revert acc. induction rs as [|r rs IH]; intros acc; cbn [for_each].
  - intros [= <-]. simpl. lia.
  - destruct (py_index r k) as [x|e]; cbn [mbind result_bind]; [|done].
    intros Hrun%IH. rewrite length_app in Hrun. simpl in *. lia.
Qed.

(** One file that loads: as many feature rows as labels, at least two
    columns, and a feature width of three columns less. *)
Lemma file_arrays_shape (data : table cell) (F : array2 cell) (L : list cell) :
  file_arrays data = Ok (F, L) →
  length (rows F) = length L ∧ (2 ≤ ncols data)%nat ∧
  width F = (ncols data - 3)%nat.
Proof.
  unfold file_arrays, iloc_column.
  destruct (decide (2 ≤ ncols data)%nat) as [Hm|Hm]; last first.
  { rewrite py_index_label_missing by (rewrite length_seq; lia). done. }
  destruct (py_index (seq 0 (ncols data)) (-2)) as [?|e];
    cbn [mbind result_bind]; [|done].
  destruct (for_each _ (trows data) []) as [labels|e] eqn:Hloop;
    cbn [mbind result_bind]; [|done].
  intros [= <- <-]. apply label_loop_length in Hloop.
  unfold iloc_columns. cbn [rows width].
  rewrite length_map, py_slice_features_row, length_take, length_drop, length_seq.
  simpl in Hloop. split; [lia|]. split; [done|lia].
Qed.

Lemma load_loop_inv names accF accL log log' F' L' :
  io_for_each (load_file fs) names (accF, accL) log = (log', Ok (F', L')) →
  ∃ per_file,
    Forall2 (loads_as fs) (csv_files names) per_file ∧
    log' = log ++ map (path_join fs BASE_DATA_PATH) (csv_files names) ∧
    F' = accF ++ map fst per_file ∧ L' = accL ++ map snd per_file.
Proof.
  revert accF accL log.
  induction names as [|name names IH]; intros accF accL log.
  - cbn. intros [= <- <- <-]. exists []. by rewrite !app_nil_r.
  - cbn [io_for_each]. unfold io_bind at 1, csv_files. cbn [List.filter].
    fold (csv_files names).
    destruct (endswith name ".csv") eqn:Hcsv.
    + unfold load_file. rewrite Hcsv. unfold io_bind, pd_read_csv, io_lift.
      destruct (read_csv fs (path_join fs BASE_DATA_PATH name))
        as [data|e] eqn:Hread; [|done].
      destruct (file_arrays data) as [[F L]|e] eqn:Harr; [|done].
      unfold io_ret. intros Hrun.
      apply IH in Hrun as (per_file & Hall & -> & -> & ->).
      exists ((F, L) :: per_file). split; [|by rewrite <- !app_assoc].
      constructor; [by exists data|done].
    + rewrite load_file_other by done. apply IH.
Qed.

Lemma np_vstack_inv (arrays : list (array2 cell)) (F : array2 cell) :
  np_vstack arrays = Ok F →
  arrays ≠ [] ∧ Forall (λ a, width a = width F) arrays ∧
  rows F = concat (map rows arrays).
Proof.
  destruct arrays as [|a arrays]; [done|]. unfold np_vstack.
  destruct (forallb _ arrays) eqn:Hall; [|done]. intros [= <-].
  split; [done|]. split; [|done]. cbn [width]. constructor; [done|].
  apply Forall_forall. intros b Hb. rewrite forallb_forall in Hall.
  by apply Nat.eqb_eq, Hall, list_elem_of_In.
Qed.

(** X7: a result of [load_data_from_files] means that the listing held at
    least one [.csv] entry, that every [.csv] entry was read and gave its
    arrays, all of one width, and that the result stacks them; the feature
    matrix then has as many rows as there are labels. *)
Theorem load_data_from_files_returned (log log' : list string)
    (F : array2 cell) (L : list cell) :
  load_data_from_files fs log = (log', Ok (F, L)) →
  ∃ names per_file,
    listdir fs BASE_DATA_PATH = Ok names ∧
    csv_files names ≠ [] ∧
    Forall2 (loads_as fs) (csv_files names) per_file ∧
    Forall (λ FL, width FL.1 = width F) per_file ∧
    rows F = concat (map (λ FL, rows FL.1) per_file) ∧
    L = concat (map snd per_file) ∧
    log' = log ++ map (path_join fs BASE_DATA_PATH) (csv_files names) ∧
    length (rows F) = length L.
Proof.
  unfold load_data_from_files, io_bind at 1, os_listdir.
  destruct (listdir fs BASE_DATA_PATH) as [names|e] eqn:Hdir; [|done].
  unfold io_bind at 1.
  destruct (io_for_each (load_file fs) names ([], []) log)
    as [log1 [[Fs Ls]|e]] eqn:Hloop; [|done].
  apply load_loop_inv in Hloop as (per_file & Hall & -> & -> & ->).
  rewrite !app_nil_l. unfold io_bind, io_lift, io_ret.
  destruct (np_vstack (map fst per_file)) as [F0|e] eqn:Hstack; [|done].
  destruct (np_concatenate (map snd per_file)) as [L0|e] eqn:Hcat; [|done].
  intros [= <- <- <-].
  apply np_vstack_inv in Hstack as (Hne & Hwidth & Hrows).
  assert (L0 = concat (map snd per_file)) as ->.
  { unfold np_concatenate in Hcat. destruct (map snd per_file); [done|].
    by injection Hcat as <-. }
  exists names, per_file. split; [done|]. split.
  { intros Hnil. rewrite Hnil in Hall. apply Forall2_nil_inv_l in Hall as ->.
    done. }
  split; [done|]. split; [by apply Forall_fmap in Hwidth|].
  rewrite Hrows, map_map. split; [done|]. split; [done|]. split; [done|].
  clear -Hall. generalize dependent (csv_files names). intros csvs Hall.
  induction Hall as [|name [Fi Li] csvs per_file Hload _ IH]; [done|].
  cbn [map concat fst snd]. rewrite !length_app, IH. f_equal.
  destruct Hload as (data & _ & Harr). by apply file_arrays_shape in Harr as [? _].
Qed.

Lemma load_loop_log names acc log :
  ∃ k : nat,
    (io_for_each (load_file fs) names acc log).1
    = log ++ map (path_join fs BASE_DATA_PATH) (take k (csv_files names)).
Proof.
  revert acc log. induction names as [|name names IH]; intros acc log.
  - exists 0%nat. cbn. by rewrite app_nil_r.
  - cbn [io_for_each]. unfold io_bind at 1, csv_files. cbn [List.filter].
    fold (csv_files names).
    destruct (endswith name ".csv") eqn:Hcsv.
    + destruct acc as [accF accL].
      destruct (read_csv fs (path_join fs BASE_DATA_PATH name))
        as [data|e] eqn:Hread.
      * destruct (file_arrays data) as [[F L]|e] eqn:Harr.
        -- rewrite (load_file_ok fs accF accL name (F, L))
             by (done || by exists data).
           destruct (IH (accF ++ [F], accL ++ [L])
                        (log ++ [path_join fs BASE_DATA_PATH name])) as [k Hk].
           exists (S k). cbn [fst snd]. rewrite Hk. cbn [take map].
           by rewrite <- app_assoc.
        -- rewrite (load_file_raises fs _ name e);
             [by exists 1%nat|done|right; by exists data].
      * rewrite (load_file_raises fs _ name e); [by exists 1%nat|done|by left].
    + rewrite load_file_other by done. apply IH.
Qed.

(** X8: whatever the outcome, [load_data_from_files] hands to [pd.read_csv]
    only [.csv] entries of the listing, in listing order and without a gap;
    when an entry fails, the entries listed after it are not read. *)
Theorem load_data_from_files_reads (log : list string) :
  (∀ e, listdir fs BASE_DATA_PATH = Raise e →
        (load_data_from_files fs log).1 = log) ∧
  (∀ names, listdir fs BASE_DATA_PATH = Ok names →
     ∃ k : nat,
       (load_data_from_files fs log).1
       = log ++ map (path_join fs BASE_DATA_PATH) (take k (csv_files names))) ∧
  (∀ pre name post per_file e,
     listdir fs BASE_DATA_PATH = Ok (pre ++ name :: post) →
     endswith name ".csv" = true →
     Forall2 (loads_as fs) (csv_files pre) per_file →
     load_raises fs name e →
     load_data_from_files fs log
     = (log ++ map (path_join fs BASE_DATA_PATH) (csv_files pre)
            ++ [path_join fs BASE_DATA_PATH name], Raise e)).
Proof.
  split; [|split].
  - intros e Hdir. unfold load_data_from_files, io_bind, os_listdir.
    by rewrite Hdir.
  - intros names Hdir.
    destruct (load_loop_log names ([], []) log) as [k Hk]. exists k.
    unfold load_data_from_files, io_bind at 1, os_listdir. rewrite Hdir.
    unfold io_bind at 1.
    destruct (io_for_each (load_file fs) names ([], []) log)
      as [log1 [[Fs Ls]|e]]; cbn [fst] in Hk; subst log1; [|done].
    unfold io_bind, io_lift, io_ret.
    destruct (np_vstack Fs); [|done]. by destruct (np_concatenate Ls).
  - intros pre name post per_file e Hdir Hcsv Hpre Hraise.
    unfold load_data_from_files, io_bind at 1, os_listdir. rewrite Hdir.
    unfold io_bind at 1.
    by rewrite (load_loop_raises fs pre name post per_file e).
Qed.
End LoadMore.

Lemma load_data_from_files_returned_witness :
  ∃ names per_file,
    listdir demo_fs BASE_DATA_PATH = Ok names ∧
    csv_files names ≠ [] ∧
    Forall2 (loads_as demo_fs) (csv_files names) per_file ∧
    Forall (λ FL, width FL.1 = width (Array2 2 [[11;12]; [21;22]; [31;32]]))
           per_file ∧
    rows (Array2 2 [[11;12]; [21;22]; [31;32]])
    = concat (map (λ FL : array2 Z * list Z, rows FL.1) per_file) ∧
    [1; 3; 2] = concat (map snd per_file) ∧
    [demo_path_join BASE_DATA_PATH "a.csv"; demo_path_join BASE_DATA_PATH "b.csv"]
    = [] ++ map (path_join demo_fs BASE_DATA_PATH) (csv_files names) ∧
    length (rows (Array2 2 [[11;12]; [21;22]; [31;32]])) = length [1; 3; 2].
Proof.
  apply (load_data_from_files_returned demo_fs []). reflexivity.
Defined.

(** Three CSV files of which the second cannot be parsed: the third is not
    read. *)
Lemma load_data_from_files_reads_witness :
  (∃ k : nat,
     (load_data_from_files demo_fs []).1
     = [] ++ map (path_join demo_fs BASE_DATA_PATH)
                 (take k (csv_files ["a.csv"; "notes.txt"; "b.csv"]%string))) ∧
  load_data_from_files broken_fs []
  = ([] ++ map (path_join broken_fs BASE_DATA_PATH) (csv_files ["a.csv"%string])
        ++ [path_join broken_fs BASE_DATA_PATH "b.csv"], Raise ParserError).
Proof.
  split.
  - apply (proj1 (proj2 (load_data_from_files_reads demo_fs []))). reflexivity.
  - apply (proj2 (proj2 (load_data_from_files_reads broken_fs []))
             ["a.csv"%string] "b.csv"%string ["c.csv"%string]
             [(Array2 2 [[11;12]], [1])]).
    + reflexivity.
    + reflexivity.
    + repeat constructor. eexists. split; reflexivity.
    + left. reflexivity.
Defined.

(** ** [balance_classes]: large, zero and negative targets, and the default *)

Section BalanceKept.
Local Open Scope nat_scope.
Context {sample fsample : Type}.
Implicit Types (X : list sample) (y : list Z).

Lemma balance_loop_all y (T : Z) (classes : list Z) acc g :
  (∀ cls, cls ∈ classes → (Z.of_nat (count cls y) ≤ T)%Z) →
  for_each (balance_step y T) classes (acc, g)
  = Ok (acc ++ concat (map (np_where_eq y) classes), g).
Proof.
  revert acc. induction classes as [|cls classes IH]; intros acc Hall.
  - simpl. by rewrite app_nil_r.
  - assert (balance_step y T (acc, g) cls = Ok (acc ++ np_where_eq y cls, g))
      as Hstep.
    { unfold balance_step.
      destruct (Z.ltb_spec T (Z.of_nat (length (np_where_eq y cls))))
        as [Hlt|_]; [|done].
      rewrite length_np_where_eq in Hlt.
      specialize (Hall cls ltac:(left)). lia. }
    cbn [for_each]. rewrite Hstep. cbn [mbind result_bind].
    rewrite IH by (intros; apply Hall; by right).
    cbn [map concat]. by rewrite <- app_assoc.
Qed.

Lemma omap_lookup_seq {A : Type} (l0 l : list A) :
  omap (λ i, (l0 ++ l) !! i) (seq (length l0) (length l)) = l.
Proof.
  revert l0. induction l as [|x l IH]; intros l0; [done|].
  cbn [length seq omap list_omap]. rewrite list_lookup_middle by done.
  f_equal. specialize (IH (l0 ++ [x])).
  rewrite <- app_assoc, length_app, Nat.add_1_r in IH. exact IH.
Qed.

(** Reading a list at a permutation of all its positions permutes it. *)
Lemma taken_all_Permutation {A : Type} (l out : list A) (idx : list nat) :
  Forall2 (λ i v, l !! i = Some v) idx out →
  idx ≡ₚ seq 0 (length l) → out ≡ₚ l.
Proof.
  intros Hall Hperm.
  assert (out = omap (λ i, l !! i) idx) as ->.
  { clear Hperm. induction Hall as [|i v idx out Hi _ IH]; [done|].
    cbn [omap list_omap]. rewrite Hi. by f_equal. }
  rewrite Hperm.
  by rewrite (omap_lookup_seq [] l
              : omap (λ i, l !! i) (seq 0 (length l)) = l).
Qed.

Lemma taken_zip {A B : Type} (l1 : list A) (l2 : list B) (idx : list nat)
    (Xb : list A) (yb : list B) :
  Forall2 (λ i x, l1 !! i = Some x) idx Xb →
  Forall2 (λ i l, l2 !! i = Some l) idx yb →
  Forall2 (λ i p, zip l1 l2 !! i = Some p) idx (zip Xb yb).
Proof.
  intros HX. revert yb. induction HX as [|i x idx Xb Hx _ IH]; intros yb Hy.
  - apply Forall2_nil_inv_l in Hy as ->. constructor.
  - apply Forall2_cons_inv_l in Hy as (l & yb' & Hl & Hy & ->).
    cbn [zip_with]. constructor; [|by apply IH].
    apply lookup_zip_with_Some. by exists x, l.
Qed.

Lemma taken_map (f : sample → fsample) X (idx : list nat) Xb :
  Forall2 (λ i x, X !! i = Some x) idx Xb →
  Forall2 (λ i x, map f X !! i = Some x) idx (map f Xb).
Proof.
  intros HX. apply Forall2_fmap_r. eapply Forall2_impl; [exact HX|].
  intros i x Hx. cbn. by rewrite list_lookup_fmap, Hx.
Qed.

(** A target that no class exceeds: nothing is dropped. *)
Lemma balance_classes_all_kept (f : sample → fsample) X y (t : Z) g :
  length X = length y →
  (∀ c, c ∈ y → (Z.of_nat (count c y) ≤ t)%Z) →
  ∃ Xb yb g',
    balance_classes f X y (Some t) g = Ok (Xb, yb, g') ∧
    zip Xb yb ≡ₚ zip (map f X) y.
Proof.
  intros Hlen Hle. unfold balance_classes.
  destruct (np_unique_classes y) as [Hnd Hmem].
  destruct (np_unique y) as [classes counts]. cbn [fst] in *.
  cbn [mbind result_bind].
  rewrite balance_loop_all by (intros; by apply Hle, Hmem).
  cbn [mbind result_bind app].
  pose proof (np_random_shuffle_Permutation
                (concat (map (np_where_eq y) classes)) g) as Hperm.
  destruct (np_random_shuffle (concat (map (np_where_eq y) classes)) g)
    as [idx g']. cbn [fst] in Hperm.
  rewrite class_positions_cover in Hperm by (done || (intros; by apply Hmem)).
  assert (Forall (λ i, i < length y) idx) as Hin.
  { apply Forall_forall. intros i Hi. rewrite Hperm in Hi.
    apply elem_of_seq in Hi. lia. }
  destruct (np_take_ok y idx Hin) as (yb & Hyb & Hyb').
  rewrite <- Hlen in Hin.
  destruct (np_take_ok X idx Hin) as (Xb & -> & HXb').
  rewrite Hyb. cbn [mbind result_bind]. rewrite map_torch_long.
  exists (map f Xb), yb, g'. split; [done|].
  apply (taken_all_Permutation _ _ idx).
  - exact (taken_zip (map f X) y idx (map f Xb) yb (taken_map f X idx Xb HXb') Hyb').
  - rewrite length_zip_with_l_eq by (by rewrite length_map).
    by rewrite length_map, Hlen.
Qed.
End BalanceKept.

Section BalanceMore.
Local Open Scope nat_scope.
Context {sample fsample : Type}.
Variable as_float32 : sample → fsample.
Implicit Types (X : list sample) (y : list Z).

(** X9: when [target_size] is at least the size of every class, the balanced
    dataset is the input dataset, converted to float32, in another order: no
    sample is dropped or added, and every row keeps its label. *)
Theorem balance_classes_large_target X y (t : Z) g :
  length X = length y →
  (∀ c, c ∈ y → (Z.of_nat (count c y) ≤ t)%Z) →
  ∃ Xb yb g',
    balance_classes as_float32 X y (Some t) g = Ok (Xb, yb, g') ∧
    zip Xb yb ≡ₚ zip (map as_float32 X) y.
Proof.
  intros Hlen Hle.
  destruct (balance_classes_all_kept as_float32 X y t g Hlen Hle)
    as (Xb & yb & g' & Hrun & Hperm).
  by exists Xb, yb, g'.
Qed.

(** X10: balancing once more with the same target only reorders what the
    first balancing returned.  The first result is a float32 tensor, which
    the conversion of the second call leaves as it is. *)
Theorem balance_classes_twice X y (t : Z) g :
  length X = length y → (0 ≤ t)%Z →
  ∃ Xb yb g1 Xb' yb' g2,
    balance_classes as_float32 X y (Some t) g = Ok (Xb, yb, g1) ∧
    balance_classes id Xb yb (Some t) g1 = Ok (Xb', yb', g2) ∧
    zip Xb' yb' ≡ₚ zip Xb yb.
Proof.
  intros Hlen Ht.
  destruct (balance_classes_ok as_float32 X y (Some t) g)
    as (Xb & yb & g1 & idx & T & Hrun & -> & _ & HXb & Hyb & Hcount);
    [lia|done|].
  destruct (balance_classes_all_kept id (map as_float32 Xb) yb t g1)
    as (Xb' & yb' & g2 & Hrun' & Hperm).
  - apply Forall2_length in HXb, Hyb. rewrite length_map. congruence.
  - intros c _. specialize (Hcount c).
    rewrite <- (count_taken y idx yb c Hyb) in Hcount.
    destruct (decide (c ∈ y)); lia.
  - rewrite map_id in Hperm.
    by exists (map as_float32 Xb), yb, g1, Xb', yb', g2.
Qed.

(** X11: the target 0 gives an empty dataset, without an error. *)
Theorem balance_classes_target_zero X y g :
  length X = length y →
  ∃ g', balance_classes as_float32 X y (Some 0%Z) g = Ok ([], [], g').
Proof.
  intros Hlen.
  destruct (balance_classes_ok as_float32 X y (Some 0%Z) g)
    as (Xb & yb & g' & idx & T & Hrun & -> & _ & HXb & Hyb & Hcount);
    [lia|done|].
  assert (idx = []) as ->.
  { destruct idx as [|i idx]; [done|]. exfalso.
    apply Forall2_cons_inv_l in Hyb as (l & yb' & Hl & _ & _).
    specialize (Hcount l). rewrite filter_cons_True in Hcount by done.
    destruct (decide (l ∈ y)); simpl in Hcount; lia. }
  apply Forall2_nil_inv_l in HXb as ->. apply Forall2_nil_inv_l in Hyb as ->.
  by exists g'.
Qed.

Lemma counts_Permutation_cons {A B : Type} (f : A → B) (l : list A) b k :
  map f l ≡ₚ b :: k → ∃ a l', l ≡ₚ a :: l' ∧ f a = b ∧ map f l' ≡ₚ k.
Proof.
  intros Hperm.
  assert (b ∈ map f l) as (a & -> & Ha)%list_elem_of_fmap
    by (rewrite Hperm; left).
  apply elem_of_Permutation in Ha as [l' Hl'].
  exists a, l'. split; [done|]. split; [done|].
  apply (Permutation_cons_inv (a := f a)).
  by rewrite <- Hperm, Hl'.
Qed.

(** X13: without a [target_size] and with two classes or more, there are a
    class [cmax] of the largest size and another class [c2] of the largest
    size among the others, such that [cmax] is cut down to the size of [c2]
    and every other class keeps all of its samples. *)
Theorem balance_classes_default_trims_largest X y g :
  length X = length y →
  (∃ a b, a ∈ y ∧ b ∈ y ∧ a ≠ b) →
  ∃ Xb yb g' cmax c2,
    balance_classes as_float32 X y None g = Ok (Xb, yb, g') ∧
    cmax ∈ y ∧ c2 ∈ y ∧ c2 ≠ cmax ∧
    (∀ c, count c y ≤ count cmax y) ∧
    (∀ c, c ≠ cmax → count c y ≤ count c2 y) ∧
    count cmax yb = count c2 y ∧
    ∀ c, c ≠ cmax → count c yb = count c y.
Proof.
  intros Hlen (a & b & Ha & Hb & Hab).
  destruct (balance_classes_ok as_float32 X y None g)
    as (Xb & yb & g' & idx & T & Hrun & HT & _ & _ & Hyb & Hcount).
  { lia. }
  { by apply (two_classes_unique y a b). }
  destruct HT as (Tn & -> & classes & Hnd & Hmem & M & rest & Hperm & HTM & Hrest).
  apply counts_Permutation_cons in Hperm as (cmax & l1 & Hl1 & HM & Hperm).
  apply counts_Permutation_cons in Hperm as (c2 & l2 & Hl2 & HTn & Hperm).
  rewrite Hl2 in Hl1. rewrite Hl1 in Hnd.
  apply NoDup_cons in Hnd as [Hcmax _].
  assert (∀ c, c ∈ y → c ≠ cmax → count c y ≤ Tn) as Hsmall.
  { intros c Hc Hne. apply Hmem in Hc. rewrite Hl1 in Hc.
    apply elem_of_cons in Hc as [?|Hc]; [done|].
    apply elem_of_cons in Hc as [->|Hc]; [lia|].
    rewrite Forall_forall in Hrest. apply Hrest. rewrite <- Hperm.
    apply list_elem_of_fmap. by exists c. }
  assert (∀ c, Z.of_nat (count c yb)
               = if decide (c ∈ y)
                 then Z.min (Z.of_nat (count c y)) (Z.of_nat Tn) else 0%Z)
    as Hyb_count.
  { intros c. rewrite (count_taken y idx yb c Hyb). apply Hcount. }
  assert (∀ c, c ∉ y → count c y = 0) as Hnone.
  { intros c Hc. destruct (count c y) eqn:Hz; [done|].
    exfalso. apply Hc, count_pos. lia. }
  exists (map as_float32 Xb), yb, g', cmax, c2.
  split; [done|]. split; [apply Hmem; rewrite Hl1; left|].
  split; [apply Hmem; rewrite Hl1; right; left|].
  split; [intros ->; apply Hcmax; left|].
  split; [|split; [|split]].
  - intros c. destruct (decide (c ∈ y)) as [Hc|Hc];
      [|rewrite (Hnone c Hc); lia].
    destruct (decide (c = cmax)) as [->|Hne]; [done|].
    specialize (Hsmall c Hc Hne). lia.
  - intros c Hne. destruct (decide (c ∈ y)) as [Hc|Hc];
      [|rewrite (Hnone c Hc); lia].
    specialize (Hsmall c Hc Hne). lia.
  - specialize (Hyb_count cmax).
    rewrite decide_True in Hyb_count by (apply Hmem; rewrite Hl1; left). lia.
  - intros c Hne. specialize (Hyb_count c).
    destruct (decide (c ∈ y)) as [Hc|Hc].
    + specialize (Hsmall c Hc Hne). lia.
    + rewrite (Hnone c Hc). lia.
Qed.

(** X12: a negative target is refused by [np.random.choice] at the first
    class: the call raises [ValueError] for every non-empty input. *)
Theorem balance_classes_negative_target_raises X y (t : Z) g :
  y ≠ [] → (t < 0)%Z →
  balance_classes as_float32 X y (Some t) g = Raise ValueError.
Proof.
  intros Hne Ht. unfold balance_classes.
  destruct (np_unique_classes y) as [_ Hmem].
  destruct (np_unique y) as [classes counts]. cbn [fst] in *.
  cbn [mbind result_bind].
  destruct classes as [|cls classes].
  { destruct y as [|v y]; [done|]. exfalso.
    apply (elem_of_nil v), Hmem. left. }
  assert (0 < count cls y) as Hpos by (apply count_pos, Hmem; left).
  assert (balance_step y t ([], g) cls = Raise ValueError) as Hstep.
  { unfold balance_step. rewrite <- length_np_where_eq in Hpos.
    destruct (Z.ltb_spec t (Z.of_nat (length (np_where_eq y cls)))); [|lia].
    unfold np_random_choice.
    destruct (Nat.eqb_spec (length (np_where_eq y cls)) 0); [lia|].
    cbn [andb].
    destruct (Z.ltb_spec (Z.of_nat (length (np_where_eq y cls))) t); [lia|].
    destruct (Z.ltb_spec t 0); [done|lia]. }
  cbn [for_each]. by rewrite Hstep.
Qed.
End BalanceMore.

Lemma balance_classes_large_target_witness :
  ∃ Xb yb g',
    balance_classes float32_of_int [10; 20; 30] [0; 1; 0] (Some 2) demo_rng
    = Ok (Xb, yb, g') ∧
    zip Xb yb ≡ₚ zip (map float32_of_int [10; 20; 30]) [0; 1; 0].
Proof.
  apply (balance_classes_large_target float32_of_int
           [10; 20; 30] [0; 1; 0] 2 demo_rng).
  - reflexivity.
  - intros c Hc.
    repeat (apply elem_of_cons in Hc as [->|Hc]);
      [vm_compute; discriminate..|by apply elem_of_nil in Hc].
Defined.

Lemma balance_classes_twice_witness :
  ∃ Xb yb g1 Xb' yb' g2,
    balance_classes float32_of_int [10;11;12;13;14;15;16] [0;0;0;0;1;1;2] (Some 1) demo_rng
    = Ok (Xb, yb, g1) ∧
    balance_classes id Xb yb (Some 1) g1 = Ok (Xb', yb', g2) ∧
    zip Xb' yb' ≡ₚ zip Xb yb.
Proof.
  apply (balance_classes_twice float32_of_int
           [10;11;12;13;14;15;16] [0;0;0;0;1;1;2] 1 demo_rng).
  - reflexivity.
  - lia.
Defined.

Lemma balance_classes_target_zero_witness :
  ∃ g', balance_classes float32_of_int [10;11;12;13;14;15;16] [0;0;0;0;1;1;2] (Some 0) demo_rng
        = Ok ([], [], g').
Proof.
  apply (balance_classes_target_zero float32_of_int
           [10;11;12;13;14;15;16] [0;0;0;0;1;1;2] demo_rng).
  reflexivity.
Defined.

Lemma balance_classes_negative_target_raises_witness :
  balance_classes float32_of_int [10;11;12;13;14;15;16] [0;0;0;0;1;1;2] (Some (-1)) demo_rng
  = Raise ValueError.
Proof.
  apply (balance_classes_negative_target_raises float32_of_int
           [10;11;12;13;14;15;16] [0;0;0;0;1;1;2] (-1) demo_rng).
  - discriminate.
  - lia.
Defined.

Lemma balance_classes_default_trims_largest_witness :
  ∃ Xb yb g' cmax c2,
    balance_classes float32_of_int [10;11;12;13;14;15;16] [0;0;0;0;1;1;2] None demo_rng
    = Ok (Xb, yb, g') ∧
    cmax ∈ [0;0;0;0;1;1;2] ∧ c2 ∈ [0;0;0;0;1;1;2] ∧ c2 ≠ cmax ∧
    (∀ c, le (count c [0;0;0;0;1;1;2]) (count cmax [0;0;0;0;1;1;2])) ∧
    (∀ c, c ≠ cmax →
          le (count c [0;0;0;0;1;1;2]) (count c2 [0;0;0;0;1;1;2])) ∧
    count cmax yb = count c2 [0;0;0;0;1;1;2] ∧
    ∀ c, c ≠ cmax → count c yb = count c [0;0;0;0;1;1;2].
Proof.
  apply (balance_classes_default_trims_largest float32_of_int
           [10;11;12;13;14;15;16] [0;0;0;0;1;1;2] demo_rng).
  - reflexivity.
  - exists 0, 1. split; [|split]; [repeat constructor..|lia].
Defined.

(** ** The split by class: what a returned result tells *)

Section SplitMore.
Local Open Scope nat_scope.
Context {f32 : Type}.
Variable seed42 : rng.
Local Abbreviation sample := (list (list f32)).
Implicit Types (X : list sample) (y : list Z).

Lemma stratified_split_inv X y Xtr Xte ytr yte :
  length X = length y →
  stratified_split seed42 X y (np_unique y).1 = Ok (Xtr, Xte, ytr, yte) →
  y ≠ [] ∧
  (∀ k, k < length (np_unique y).1 → 2 ≤ count (Z.of_nat k) y) ∧
  ∃ train test : list nat,
    train ++ test ≡ₚ seq 0 (length y) ∧
    Forall2 (λ j x, X !! j = Some x) train Xtr ∧
    Forall2 (λ j x, X !! j = Some x) test Xte ∧
    Forall2 (λ j l, y !! j = Some l) train ytr ∧
    Forall2 (λ j l, y !! j = Some l) test yte.
Proof.
  intros Hlen Hrun.
  set (K := length (np_unique y).1) in *.
  set (ids := map Z.of_nat (seq 0 K)).
  destruct (class_comprehensions X y ids Hlen) as (Xcs & ycs & HX & Hy & Hcls).
  unfold stratified_split in Hrun. fold K in Hrun.
  rewrite class_ids in Hrun. fold ids in Hrun.
  cbn [mbind result_bind] in Hrun. rewrite HX in Hrun.
  cbn [mbind result_bind] in Hrun. rewrite Hy in Hrun.
  cbn [mbind result_bind] in Hrun.
  assert (∀ k, k < K → 2 ≤ count (Z.of_nat k) y) as Hbig.
  { intros k Hk. destruct (decide (2 ≤ count (Z.of_nat k) y)) as [|Hsmall];
      [done|]. exfalso.
    rewrite (split_loop_raises seed42 X y ids Xcs ycs _ Hcls) in Hrun; [done|].
    apply Exists_exists. exists (Z.of_nat k). split; [|lia].
    apply list_elem_of_fmap. exists k. split; [done|]. apply elem_of_seq. lia. }
  assert (NoDup ids) as Hnd by apply (NoDup_fmap_2 Z.of_nat), NoDup_seq.
  assert (∀ c, c ∈ y → c ∈ ids) as Hcover.
  { intros c Hc. apply labels_are_class_ids; [|done].
    intros k Hk. apply count_pos. specialize (Hbig k Hk). lia. }
  assert (Forall (λ i, 2 ≤ count i y) ids) as Hcount.
  { apply Forall_forall. intros i (k & -> & Hk)%list_elem_of_fmap.
    apply elem_of_seq in Hk. apply Hbig. lia. }
  destruct (split_loop_ok seed42 X y ids Xcs ycs [] [] [] [] Hcls Hcount)
    as (os & Hos & Hloop).
  rewrite Hloop in Hrun. cbn [mbind result_bind app] in Hrun.
  destruct os as [|o os'] eqn:Hos_eq; [done|]. rewrite <- Hos_eq in *.
  assert (∀ {A : Type} (proj : class_outcome → list A),
            torch_cat (map proj os) = Ok (concat (map proj os))) as Hcat.
  { intros A proj. by rewrite Hos_eq. }
  rewrite !Hcat in Hrun. cbn [mbind result_bind] in Hrun.
  injection Hrun as <- <- <- <-.
  split.
  { intros ->. apply Forall2_length in Hos. rewrite Hos_eq in Hos.
    unfold ids, K in Hos. by vm_compute in Hos. }
  split; [done|].
  destruct (outcomes_taken X y ids os Hos) as (H1 & H2 & H3 & H4).
  exists (concat (map co_train os)), (concat (map co_test os)).
  split; [|done].
  rewrite (outcomes_Permutation X y ids os Hos).
  by apply class_positions_cover.
Qed.
End SplitMore.

(** ** [prepare_train_test_data]: what a returned result tells *)

Section PipelineMore.
Local Open Scope nat_scope.
Context {cell f32 f64 : Type} {F64 : Float64 f64}.
Variable as_float32 : cell → f32.
Variable as_long : cell → Z.
Variable global_rng seed42 : rng.
Local Abbreviation sample := (list (list f32)).

Lemma window_loop_lengths (features : list (list cell)) (labels : list cell)
    (w : Z) (idx : list Z) X0 y0 X y :
  for_each (window_step features labels w) idx (X0, y0) = Ok (X, y) →
  length X = length X0 + length idx ∧ length y = length y0 + length idx.
Proof.
  revert X0 y0. induction idx as [|i idx IH]; intros X0 y0; cbn [for_each].
  - intros [= <- <-]. simpl. lia.
  - destruct (window_step features labels w (X0, y0) i) as [[X1 y1]|e] eqn:Hstep;
      cbn [mbind result_bind]; [|done].
    unfold window_step in Hstep.
    destruct (py_index labels (i + w - 1)) as [l|e];
      cbn [mbind result_bind] in Hstep; [|done].
    injection Hstep as <- <-. intros [-> ->]%IH.
    rewrite !length_app. simpl. lia.
Qed.

(** [prepare_data] returns as many labels as windows. *)
Lemma prepare_data_lengths (features : list (list cell)) (labels : list cell)
    (w s : Z) X y :
  prepare_data as_float32 as_long features labels w s = Ok (X, y) →
  length X = length y.
Proof.
  unfold prepare_data.
  destruct (py_range 0 (Z.of_nat (length features) - w + 1) s) as [idx|e];
    cbn [mbind result_bind]; [|done].
  destruct (for_each (window_step features labels w) idx ([], []))
    as [[X0 y0]|e] eqn:Hloop; cbn [mbind result_bind]; [|done].
  destruct (same_shape X0); [|done]. intros [= <- <-].
  apply window_loop_lengths in Hloop as [HX Hy].
  rewrite !length_map. simpl in *. lia.
Qed.

(** A returned result of [prepare_train_test_data], stage by stage. *)
Lemma prepare_train_test_data_stages (fs : filesystem cell)
    (log log' : list string) Xtr Xte ytr yte (cw : list f64) :
  prepare_train_test_data as_float32 as_long global_rng seed42 fs log
  = (log', Ok (Xtr, Xte, ytr, yte, cw)) →
  ∃ features labels X y Xb yb g',
    load_data_from_files fs log = (log', Ok (features, labels)) ∧
    prepare_data as_float32 as_long (rows features) labels 20 1 = Ok (X, y) ∧
    balance_classes id X y None global_rng = Ok (Xb, yb, g') ∧
    stratified_split seed42 Xb yb (np_unique yb).1 = Ok (Xtr, Xte, ytr, yte) ∧
    compute_class_weight (np_unique yb).1 yb = Ok cw.
Proof.
  unfold prepare_train_test_data, io_bind, io_lift.
  destruct (load_data_from_files fs log) as [log1 [[features labels]|e]];
    [|discriminate].
  unfold prepare_loaded, default_window_size, default_stride.
  destruct (prepare_data as_float32 as_long (rows features) labels 20 1)
    as [[X y]|e] eqn:Hprep; [|discriminate].
  cbn [mbind result_bind].
  destruct (balance_classes id X y None global_rng)
    as [[[Xb yb] g']|e] eqn:Hbal; [|discriminate].
  cbn [mbind result_bind].
  destruct (np_unique yb) as [unique_labels counts] eqn:Hunique. cbn [fst].
  destruct (stratified_split seed42 Xb yb unique_labels)
    as [[[[Xtr' Xte'] ytr'] yte']|e] eqn:Hsplit; [|discriminate].
  cbn [mbind result_bind].
  destruct (compute_class_weight unique_labels yb) as [cw'|e] eqn:Hcw;
    [|discriminate].
  cbn [mbind result_bind]. intros [= <- <- <- <- <- <-].
  exists features, labels, X, y, Xb, yb, g'. by rewrite Hunique.
Qed.

(** The default target is the size of a class that occurs. *)
Lemma balance_classes_default_inv {A B : Type} (f : A → B)
    (X : list A) (Xb : list B) (y yb : list Z) g g' :
  length X = length y →
  balance_classes f X y None g = Ok (Xb, yb, g') →
  length Xb = length yb ∧ (∃ a b, a ∈ y ∧ b ∈ y ∧ a ≠ b) ∧
  (∀ c, c ∈ yb ↔ c ∈ y) ∧ (∀ c, count c yb ≤ count c y) ∧
  ∃ Tn, second_largest_class_count y Tn ∧
        ∀ c, c ∈ y → count c yb = Nat.min (count c y) Tn.
Proof.
  intros Hlen Hrun.
  destruct (decide (2 ≤ length (np_unique y).1)) as [HK|HK]; last first.
  { rewrite balance_classes_default_raises in Hrun by lia. done. }
  destruct (balance_classes_ok f X y None g)
    as (Xb0 & yb0 & g0 & idx & T & Hrun0 & HT & _ & HXb & Hyb & Hcount);
    [lia|done|].
  rewrite Hrun in Hrun0. injection Hrun0 as -> <- <-.
  destruct HT as (Tn & -> & HTn2).
  pose proof HTn2 as (classes & Hnd & Hmem & M & rest & Hperm & HTM & _).
  assert (1 ≤ Tn) as HTn.
  { assert (Tn ∈ map (λ c, count c y) classes) as (c & -> & Hc)%list_elem_of_fmap
      by (rewrite Hperm; right; left).
    by apply count_pos, Hmem. }
  assert (∀ c, Z.of_nat (count c yb)
               = if decide (c ∈ y)
                 then Z.min (Z.of_nat (count c y)) (Z.of_nat Tn) else 0%Z)
    as Hyb_count.
  { intros c. rewrite (count_taken y idx yb c Hyb). apply Hcount. }
  split; [apply Forall2_length in HXb, Hyb; rewrite length_map; congruence|].
  split.
  { destruct (np_unique_classes y) as [Hnd' Hmem'].
    destruct (np_unique y).1 as [|u [|u' us]]; simpl in HK; [lia..|].
    exists u, u'. split; [apply Hmem'; left|].
    split; [apply Hmem'; right; left|].
    intros ->. apply NoDup_cons in Hnd' as [Hu _]. apply Hu. left. }
  split; [|split].
  - intros c. specialize (Hyb_count c). rewrite !count_pos.
    destruct (decide (c ∈ y)) as [Hc|Hc].
    + apply count_pos in Hc. lia.
    + rewrite count_pos in Hc. lia.
  - intros c. specialize (Hyb_count c). destruct (decide (c ∈ y)); lia.
  - exists Tn. split; [done|]. intros c Hc. specialize (Hyb_count c).
    rewrite decide_True in Hyb_count by done. lia.
Qed.

(** X14: whenever [prepare_train_test_data] returns, the labels of the
    windows are exactly the integers [0 .. K-1] for some [K >= 2], every one
    of these classes has two balanced samples or more, there is one class
    weight per class, and the training and test sets together hold every
    balanced (sample, label) pair exactly once. *)
Theorem prepare_train_test_data_returned (fs : filesystem cell)
    (log log' : list string) Xtr Xte ytr yte (cw : list f64) :
  prepare_train_test_data as_float32 as_long global_rng seed42 fs log
  = (log', Ok (Xtr, Xte, ytr, yte, cw)) →
  ∃ features labels X y Xb yb g' (K : nat),
    load_data_from_files fs log = (log', Ok (features, labels)) ∧
    prepare_data as_float32 as_long (rows features) labels 20 1 = Ok (X, y) ∧
    balance_classes id X y None global_rng = Ok (Xb, yb, g') ∧
    2 ≤ K ∧
    (∀ c, c ∈ y ↔ (0 ≤ c < Z.of_nat K)%Z) ∧
    (∀ c, c ∈ y → 2 ≤ count c yb) ∧
    length cw = K ∧
    zip Xtr ytr ++ zip Xte yte ≡ₚ zip Xb yb.
Proof.
  intros (features & labels & X & y & Xb & yb & g' & Hload & Hprep & Hbal
          & Hsplit & Hcw)%prepare_train_test_data_stages.
  pose proof (prepare_data_lengths _ _ _ _ _ _ Hprep) as Hlen.
  destruct (balance_classes_default_inv id X Xb y yb _ _ Hlen Hbal)
    as (Hlenb & (a & b & Ha & Hb & Hab) & Hsame & _).
  destruct (stratified_split_inv seed42 Xb yb _ _ _ _ Hlenb Hsplit)
    as (_ & Hbig & train & test & Hperm & H1 & H2 & H3 & H4).
  set (K := length (np_unique yb).1) in *.
  assert (∀ c, c ∈ yb ↔ (0 ≤ c < Z.of_nat K)%Z) as Hids.
  { intros c. split.
    - intros Hc. apply (labels_are_class_ids yb c) in Hc.
      + fold K in Hc. apply list_elem_of_fmap in Hc as (k & -> & Hk).
        apply elem_of_seq in Hk. lia.
      + intros k Hk. apply count_pos. specialize (Hbig k Hk). lia.
    - intros [Hc0 HcK]. apply count_pos.
      specialize (Hbig (Z.to_nat c) ltac:(lia)).
      rewrite Z2Nat.id in Hbig by done. lia. }
  exists features, labels, X, y, Xb, yb, g', K.
  split; [done|]. split; [done|]. split; [done|]. split.
  { apply (two_classes_unique yb a b); [by apply Hsame..|done]. }
  split; [intros c; by rewrite <- Hsame|]. split.
  { intros c Hc. apply Hsame, Hids in Hc.
    specialize (Hbig (Z.to_nat c) ltac:(lia)).
    by rewrite Z2Nat.id in Hbig by lia. }
  split.
  { rewrite compute_class_weight_unique in Hcw. injection Hcw as <-.
    by rewrite length_map. }
  apply (taken_all_Permutation _ _ (train ++ test)).
  - apply Forall2_app; by apply taken_zip.
  - rewrite length_zip_with_l_eq by done. by rewrite Hlenb.
Qed.

(** X15: when the labels of the windows are all of one class, and so too
    when there is no window at all, [prepare_train_test_data] raises
    [IndexError]: the balancing finds no second-largest class. *)
Theorem prepare_train_test_data_one_class (fs : filesystem cell)
    (log log' : list string) (features : array2 cell) (labels : list cell) X y :
  load_data_from_files fs log = (log', Ok (features, labels)) →
  prepare_data as_float32 as_long (rows features) labels 20 1 = Ok (X, y) →
  (∀ a b, a ∈ y → b ∈ y → a = b) →
  prepare_train_test_data as_float32 as_long global_rng seed42 fs log
  = (log', Raise IndexError).
Proof.
  intros Hload Hprep Hone.
  unfold prepare_train_test_data, io_bind, io_lift. rewrite Hload.
  unfold prepare_loaded, default_window_size, default_stride. rewrite Hprep.
  cbn [mbind result_bind].
  by rewrite balance_classes_default_raises by by apply one_class_unique.
Qed.
End PipelineMore.

(** The run on one file of 24 rows with the labels 0 and 1. *)
Lemma prepare_train_test_data_returned_witness :
  ∃ features labels X y Xb yb g' (K : nat),
    load_data_from_files (one_file_fs demo_labels_01) []
    = ([demo_path_join BASE_DATA_PATH "run1.csv"], Ok (features, labels)) ∧
    prepare_data (@id Z) (@id Z) (rows features) labels 20 1 = Ok (X, y) ∧
    balance_classes id X y None demo_rng = Ok (Xb, yb, g') ∧
    le 2 K ∧
    (∀ c, c ∈ y ↔ 0 ≤ c < Z.of_nat K) ∧
    (∀ c, c ∈ y → le 2 (count c yb)) ∧
    length [1%Q; 1%Q] = K ∧
    zip [demo_window 1; demo_window 3] [0; 1]
    ++ zip [demo_window 0; demo_window 2] [0; 1] ≡ₚ zip Xb yb.
Proof.
  apply (prepare_train_test_data_returned (F64 := binary64) (@id Z) (@id Z)
           demo_rng demo_rng (one_file_fs demo_labels_01) []).
  vm_compute. reflexivity.
Defined.

(** One file of 22 rows, all of class 1. *)
Lemma prepare_train_test_data_one_class_witness :
  prepare_train_test_data (F64 := binary64) (@id Z) (@id Z) demo_rng demo_rng
    (one_file_fs (replicate 22 1)) []
  = ([demo_path_join BASE_DATA_PATH "run1.csv"], Raise IndexError).
Proof.
  apply (prepare_train_test_data_one_class (F64 := binary64) (@id Z) (@id Z)
           demo_rng demo_rng (one_file_fs (replicate 22 1)) []
           [demo_path_join BASE_DATA_PATH "run1.csv"]
           (Array2 1 (map (λ k : nat, [100 + Z.of_nat k]) (seq 0 22)))
           (replicate 22 1)
           [demo_window 0; demo_window 1; demo_window 2] [1; 1; 1]).
  - vm_compute. reflexivity.
  - vm_compute. reflexivity.
  - intros a b Ha Hb.
    assert (∀ c : Z, c ∈ [1; 1; 1] → c = 1) as Hone.
    { intros c Hc. repeat (apply elem_of_cons in Hc as [->|Hc]); try done.
      by apply elem_of_nil in Hc. }
    by rewrite (Hone a Ha), (Hone b Hb).
Defined.

(** ** The class weights of a returned result *)

Lemma seq_StronglySorted (a K : nat) :
  StronglySorted Z.le (map Z.of_nat (seq a K)).
Proof.
  revert a. induction K as [|K IH]; intros a; cbn [seq map]; constructor.
  - apply IH.
  - apply Forall_forall. intros x (k & -> & Hk)%list_elem_of_fmap.
    apply elem_of_seq in Hk. lia.
Qed.

Section WeightsMore.
Local Open Scope nat_scope.
Implicit Types (y ids : list Z).

(** Labels that are exactly [0 .. K-1]: [np.unique] lists them as such, so
    that the position of a class in it is the class itself. *)
Lemma np_unique_class_ids y (K : nat) :
  (∀ c, c ∈ y ↔ (0 ≤ c < Z.of_nat K)%Z) →
  (np_unique y).1 = map Z.of_nat (seq 0 K).
Proof.
  intros Hids. destruct (np_unique_classes y) as [Hnd Hmem].
  apply (StronglySorted_unique Z.le).
  - unfold np_unique. cbn [fst]. apply StronglySorted_merge_sort; apply _.
  - apply seq_StronglySorted.
  - apply NoDup_Permutation;
      [done|apply (NoDup_fmap_2 Z.of_nat), NoDup_seq|].
    intros c. rewrite Hmem, Hids, list_elem_of_fmap. split.
    + intros Hc. exists (Z.to_nat c). split; [lia|apply elem_of_seq; lia].
    + intros (k & -> & Hk%elem_of_seq). lia.
Qed.

Lemma split_class_ids y :
  (∀ k, k < length (np_unique y).1 → 2 ≤ count (Z.of_nat k) y) →
  ∀ c, c ∈ y ↔ (0 ≤ c < Z.of_nat (length (np_unique y).1))%Z.
Proof.
  intros Hbig c. split.
  - intros Hc. apply (labels_are_class_ids y c) in Hc.
    + apply list_elem_of_fmap in Hc as (k & -> & Hk).
      apply elem_of_seq in Hk. lia.
    + intros k Hk. apply count_pos. specialize (Hbig k Hk). lia.
  - intros [Hc0 HcK]. apply count_pos.
    specialize (Hbig (Z.to_nat c) ltac:(lia)).
    rewrite Z2Nat.id in Hbig by done. lia.
Qed.

Lemma length_class_positions y ids :
  length (concat (map (np_where_eq y) ids)) = sum_list (map (λ c, count c y) ids).
Proof.
  induction ids as [|i ids IH]; [done|].
  cbn [map concat sum_list sum_list_with].
  by rewrite length_app, length_np_where_eq, IH.
Qed.

(** The samples counted class by class. *)
Lemma length_by_classes y ids :
  NoDup ids → (∀ c, c ∈ y → c ∈ ids) →
  length y = sum_list (map (λ c, count c y) ids).
Proof.
  intros Hnd Hcover.
  pose proof (Permutation_length (class_positions_cover y ids Hnd Hcover)) as H.
  by rewrite length_seq, length_class_positions in H.
Qed.

Lemma length_equal_classes y ids (n : nat) :
  NoDup ids → (∀ c, c ∈ y → c ∈ ids) → (∀ c, c ∈ ids → count c y = n) →
  length y = length ids * n.
Proof.
  intros Hnd Hcover Hn. rewrite (length_by_classes y ids Hnd Hcover).
  clear Hnd Hcover. induction ids as [|i ids IH]; [done|].
  change (count i y + sum_list (map (λ c, count c y) ids) = S (length ids) * n).
  rewrite (Hn i) by left. rewrite IH; [simpl; lia|].
  intros c Hc. apply Hn. by right.
Qed.
End WeightsMore.

Section PipelineWeightsMore.
Local Open Scope nat_scope.
Context {cell f32 f64 : Type} {F64 : Float64 f64}.
Variable as_float32 : cell → f32.
Variable as_long : cell → Z.
Variable global_rng seed42 : rng.

(** A returned result, with its balanced labels [0 .. K-1] and the weights
    listed by class id. *)
Lemma prepare_train_test_data_weights_by_id (fs : filesystem cell)
    (log log' : list string) Xtr Xte ytr yte (cw : list f64) :
  prepare_train_test_data as_float32 as_long global_rng seed42 fs log
  = (log', Ok (Xtr, Xte, ytr, yte, cw)) →
  ∃ features labels X y Xb yb g' (K : nat),
    load_data_from_files fs log = (log', Ok (features, labels)) ∧
    prepare_data as_float32 as_long (rows features) labels 20 1 = Ok (X, y) ∧
    balance_classes id X y None global_rng = Ok (Xb, yb, g') ∧
    length X = length y ∧
    (∀ c, c ∈ yb ↔ (0 ≤ c < Z.of_nat K)%Z) ∧
    (np_unique yb).1 = map Z.of_nat (seq 0 K) ∧
    cw = map (balanced_weight yb K) (map Z.of_nat (seq 0 K)).
Proof.
  intros (features & labels & X & y & Xb & yb & g' & Hload & Hprep & Hbal
          & Hsplit & Hcw)%prepare_train_test_data_stages.
  pose proof (prepare_data_lengths _ _ _ _ _ _ _ _ Hprep) as Hlen.
  destruct (balance_classes_default_inv id X Xb y yb _ _ Hlen Hbal) as (Hlenb & _).
  destruct (stratified_split_inv seed42 Xb yb _ _ _ _ Hlenb Hsplit)
    as (Hne & Hbig & _).
  pose proof (split_class_ids yb Hbig) as Hids.
  pose proof (np_unique_class_ids yb _ Hids) as Hclasses.
  assert (cw = map (balanced_weight yb (length (np_unique yb).1))
                   (np_unique yb).1) as ->
    by (rewrite compute_class_weight_unique in Hcw; congruence).
  exists features, labels, X, y, Xb, yb, g', (length (np_unique yb).1).
  split; [done|]. split; [done|]. split; [done|]. split; [done|].
  split; [done|]. split; [done|]. by rewrite <- Hclasses.
Qed.

(** X16: in a returned result the balanced labels are the class ids
    [0 .. K-1], [K] being the number of weights, and the weight at position
    [k] is the weight of class [k]: the quotient [N / (K * count(k))] over
    the balanced labels as double precision computes it.  Classes with
    equally many balanced samples so have equal weights. *)
Theorem prepare_train_test_data_weights (fs : filesystem cell)
    (log log' : list string) Xtr Xte ytr yte (cw : list f64) :
  prepare_train_test_data as_float32 as_long global_rng seed42 fs log
  = (log', Ok (Xtr, Xte, ytr, yte, cw)) →
  ∃ features labels X y Xb yb g',
    load_data_from_files fs log = (log', Ok (features, labels)) ∧
    prepare_data as_float32 as_long (rows features) labels 20 1 = Ok (X, y) ∧
    balance_classes id X y None global_rng = Ok (Xb, yb, g') ∧
    (∀ c, c ∈ yb ↔ (0 ≤ c < Z.of_nat (length cw))%Z) ∧
    (∀ k : nat, k < length cw →
       cw !! k
       = Some (fdiv (float_of_int (Z.of_nat (length yb)))
                    (fmul (float_of_int (Z.of_nat (length cw)))
                          (float_of_int (Z.of_nat (count (Z.of_nat k) yb)))))) ∧
    ∀ (j k : nat) wj wk,
      cw !! j = Some wj → cw !! k = Some wk →
      count (Z.of_nat j) yb = count (Z.of_nat k) yb → wj = wk.
Proof.
  intros (features & labels & X & y & Xb & yb & g' & K & Hload & Hprep & Hbal
          & _ & Hids & _ & ->)%prepare_train_test_data_weights_by_id.
  rewrite !length_map, length_seq.
  assert (∀ k : nat, k < K →
            map (balanced_weight yb K) (map Z.of_nat (seq 0 K)) !! k
            = Some (balanced_weight yb K (Z.of_nat k))) as Hat.
  { intros k Hk. by rewrite !list_lookup_fmap, lookup_seq_lt. }
  exists features, labels, X, y, Xb, yb, g'.
  split; [done|]. split; [done|]. split; [done|]. split; [done|].
  split; [exact Hat|].
  intros j k wj wk Hj Hk Hcount.
  pose proof (lookup_lt_Some _ _ _ Hj) as HjK.
  pose proof (lookup_lt_Some _ _ _ Hk) as HkK.
  rewrite !length_map, length_seq in HjK, HkK.
  rewrite Hat in Hj, Hk by done.
  injection Hj as <-. injection Hk as <-.
  unfold balanced_weight. by rewrite Hcount.
Qed.

(** X17: with two classes the default balancing leaves as many samples of
    class 0 as of class 1, [n] of each, and both class weights are the same
    number: the quotient of [2 n] by the product of 2 and [n], as double
    precision computes them. *)
Theorem prepare_train_test_data_two_classes (fs : filesystem cell)
    (log log' : list string) Xtr Xte ytr yte (cw : list f64) :
  prepare_train_test_data as_float32 as_long global_rng seed42 fs log
  = (log', Ok (Xtr, Xte, ytr, yte, cw)) →
  length cw = 2 →
  ∃ features labels X y Xb yb g' (n : nat),
    load_data_from_files fs log = (log', Ok (features, labels)) ∧
    prepare_data as_float32 as_long (rows features) labels 20 1 = Ok (X, y) ∧
    balance_classes id X y None global_rng = Ok (Xb, yb, g') ∧
    1 ≤ n ∧ count 0%Z yb = n ∧ count 1%Z yb = n ∧ length yb = 2 * n ∧
    cw = [fdiv (float_of_int (Z.of_nat (2 * n)))
               (fmul (float_of_int 2%Z) (float_of_int (Z.of_nat n)));
          fdiv (float_of_int (Z.of_nat (2 * n)))
               (fmul (float_of_int 2%Z) (float_of_int (Z.of_nat n)))].
Proof.
  intros (features & labels & X & y & Xb & yb & g' & K & Hload & Hprep & Hbal
          & Hlen & Hids & Hclasses & ->)%prepare_train_test_data_weights_by_id
         HK.
  rewrite !length_map, length_seq in HK. subst K.
  destruct (balance_classes_default_inv id X Xb y yb _ _ Hlen Hbal)
    as (_ & _ & Hsame & _ & Tn & HTn & Hcount).
  destruct (np_unique_classes yb) as [Hnd Hmem].
  destruct HTn as (classes & Hnd' & Hmem' & M & rest & Hperm & HTM & _).
  assert (classes ≡ₚ (np_unique yb).1) as Hcl.
  { apply NoDup_Permutation; [done..|].
    intros c. by rewrite Hmem, Hmem', Hsame. }
  assert (rest = []) as ->.
  { apply Permutation_length in Hperm, Hcl.
    rewrite length_map, Hcl, Hclasses in Hperm. simpl in Hperm.
    destruct rest; [done|simpl in Hperm; lia]. }
  assert (∀ c, c ∈ (np_unique yb).1 → count c yb = Tn) as Hequal.
  { intros c Hc. rewrite <- Hcl in Hc. rewrite (Hcount c) by by apply Hmem'.
    assert (count c y ∈ [M; Tn]) as Hin.
    { rewrite <- Hperm. apply list_elem_of_fmap. by exists c. }
    apply elem_of_cons in Hin as [->|Hin]; [lia|].
    apply list_elem_of_singleton in Hin as ->. lia. }
  assert (length yb = 2 * Tn) as HN.
  { replace 2 with (length (np_unique yb).1) by by rewrite Hclasses.
    apply length_equal_classes; [done| |done].
    intros c. by rewrite Hmem. }
  assert (count 0%Z yb = Tn) as H0
    by (apply Hequal; rewrite Hclasses; left).
  assert (count 1%Z yb = Tn) as H1
    by (apply Hequal; rewrite Hclasses; right; left).
  assert (1 ≤ Tn) as Hpos.
  { rewrite <- H0. apply count_pos, Hids. simpl. lia. }
  exists features, labels, X, y, Xb, yb, g', Tn.
  split; [done|]. split; [done|]. split; [done|]. split; [done|].
  split; [done|]. split; [done|]. split; [done|].
  cbn [seq map]. unfold balanced_weight.
  change (Z.of_nat 0) with 0%Z. change (Z.of_nat 1) with 1%Z.
  rewrite H0, H1, HN. reflexivity.
Qed.
End PipelineWeightsMore.

(** The run on the file with the labels 0, 1 and 2: the weights of the
    classes 0 and 1, of three balanced samples each, are equal. *)
Lemma prepare_train_test_data_weights_witness :
  ∃ features labels X y Xb yb g',
    load_data_from_files (one_file_fs demo_labels_012) []
    = ([demo_path_join BASE_DATA_PATH "run1.csv"], Ok (features, labels)) ∧
    prepare_data (@id Z) (@id Z) (rows features) labels 20 1 = Ok (X, y) ∧
    balance_classes id X y None demo_rng = Ok (Xb, yb, g') ∧
    (∀ c, c ∈ yb ↔ 0 ≤ c < Z.of_nat (length demo_weights_012)) ∧
    (∀ k : nat, (k < length demo_weights_012)%nat →
       demo_weights_012 !! k
       = Some (balanced_weight (F64 := binary64) yb (length demo_weights_012)
                               (Z.of_nat k))) ∧
    ∀ (j k : nat) wj wk,
      demo_weights_012 !! j = Some wj → demo_weights_012 !! k = Some wk →
      count (Z.of_nat j) yb = count (Z.of_nat k) yb → wj = wk.
Proof.
  apply (prepare_train_test_data_weights (F64 := binary64) (@id Z) (@id Z)
           demo_rng demo_rng (one_file_fs demo_labels_012) []
           [demo_path_join BASE_DATA_PATH "run1.csv"]
           [demo_window 1; demo_window 0; demo_window 4; demo_window 6;
            demo_window 7]
           [demo_window 3; demo_window 5; demo_window 8]
           [0; 0; 1; 1; 2] [0; 1; 2] demo_weights_012).
  vm_compute. reflexivity.
Defined.

(** The run on the file with the labels 0 and 1: two balanced samples of
    each class, and two weights 1. *)
Lemma prepare_train_test_data_two_classes_witness :
  ∃ features labels X y Xb yb g' (n : nat),
    load_data_from_files (one_file_fs demo_labels_01) []
    = ([demo_path_join BASE_DATA_PATH "run1.csv"], Ok (features, labels)) ∧
    prepare_data (@id Z) (@id Z) (rows features) labels 20 1 = Ok (X, y) ∧
    balance_classes id X y None demo_rng = Ok (Xb, yb, g') ∧
    le 1 n ∧ count 0 yb = n ∧ count 1 yb = n ∧ length yb = Nat.mul 2 n ∧
    [1%Q; 1%Q]
    = [@fdiv Q binary64 (@float_of_int Q binary64 (Z.of_nat (2 * n)))
         (@fmul Q binary64 (@float_of_int Q binary64 2)
                           (@float_of_int Q binary64 (Z.of_nat n)));
       @fdiv Q binary64 (@float_of_int Q binary64 (Z.of_nat (2 * n)))
         (@fmul Q binary64 (@float_of_int Q binary64 2)
                           (@float_of_int Q binary64 (Z.of_nat n)))].
Proof.
  apply (prepare_train_test_data_two_classes (F64 := binary64) (@id Z) (@id Z)
           demo_rng demo_rng (one_file_fs demo_labels_01) []
           [demo_path_join BASE_DATA_PATH "run1.csv"]
           [demo_window 1; demo_window 3] [demo_window 0; demo_window 2]
           [0; 1] [0; 1] [1%Q; 1%Q]).
  - vm_compute. reflexivity.
  - reflexivity.
Defined.

(** ** [prepare_data]: labels that do not reach the last window *)

Section PrepareDataLabels.
Context {cell f32 : Type}.
Variable as_float32 : cell → f32.
Variable as_long : cell → Z.

Lemma py_index_raises {A : Type} (l : list A) (k : Z) e :
  py_index l k = Raise e → e = IndexError.
Proof. unfold py_index. repeat case_match; congruence. Qed.

Lemma py_index_outside {A : Type} (l : list A) (k : Z) :
  Z.of_nat (length l) ≤ k → py_index l k = Raise IndexError.
Proof.
  intros Hk. unfold py_index.
  destruct (Z.ltb_spec k 0); [lia|].
  repeat case_match; try done; exfalso.
  all: try match goal with
           | H : _ !! _ = Some _ |- _ => apply lookup_lt_Some in H
           end; lia.
Qed.

(** The loop of [prepare_data] ends on [IndexError] or not at all, and it
    returns only if every label position was in range. *)
Lemma window_loop_outcome (features : list (list cell)) (labels : list cell)
    (w : Z) (idx : list Z) acc :
  match for_each (window_step features labels w) idx acc with
  | Ok _ => Forall (λ i, ∃ x, py_index labels (i + w - 1) = Ok x) idx
  | Raise e => e = IndexError
  end.
Proof.
  revert acc. induction idx as [|i idx IH]; intros [X0 y0]; cbn [for_each].
  - constructor.
  - destruct (window_step features labels w (X0, y0) i) as [acc'|e] eqn:Hstep;
      unfold window_step in Hstep;
      destruct (py_index labels (i + w - 1)) as [l|e'] eqn:Hl;
      cbn [mbind result_bind] in *; try done.
    + specialize (IH acc').
      destruct (for_each (window_step features labels w) idx acc'); [|done].
      constructor; [by exists l|done].
    + injection Hstep as <-. by apply py_index_raises in Hl.
Qed.

(** X18: when the rows suffice for a window but the labels end before the
    label of the last window, [prepare_data] raises [IndexError]. *)
Theorem prepare_data_labels_too_short (features : list (list cell))
    (labels : list cell) (w s : Z) :
  1 ≤ w → 1 ≤ s → w ≤ Z.of_nat (length features) →
  Z.of_nat (length labels) < (Z.of_nat (length features) - w) / s * s + w →
  prepare_data as_float32 as_long features labels w s = Raise IndexError.
Proof.
  intros Hw Hs Hn Hshort.
  set (n := Z.of_nat (length features)) in *.
  assert (0 ≤ (n - w) / s) as Hq by (apply Z.div_pos; lia).
  unfold prepare_data, py_range. fold n.
  destruct (Z.eqb_spec s 0); [lia|].
  rewrite range_length_forward by lia.
  replace (n - w + 1 - 1) with (n - w) by lia.
  cbn [mbind result_bind].
  set (idx := map (λ k : nat, 0 + Z.of_nat k * s)
                  (seq 0 (Z.to_nat ((n - w) / s + 1)))).
  pose proof (window_loop_outcome features labels w idx ([], [])) as Hout.
  destruct (for_each (window_step features labels w) idx ([], []))
    as [[X y]|e]; [exfalso|by subst e].
  rewrite Forall_forall in Hout.
  destruct (Hout ((n - w) / s * s)) as [x Hx].
  - apply list_elem_of_fmap. exists (Z.to_nat ((n - w) / s)).
    split; [lia|apply elem_of_seq; lia].
  - rewrite py_index_outside in Hx by lia. done.
Qed.
End PrepareDataLabels.

Lemma prepare_data_labels_too_short_witness :
  prepare_data (@id Z) (@id Z) [[1];[2];[3];[4];[5]] [10;11;12;13] 3 1
  = Raise IndexError.
Proof.
  apply (prepare_data_labels_too_short (@id Z) (@id Z)
           [[1];[2];[3];[4];[5]] [10;11;12;13] 3 1); [lia|lia|simpl; lia|].
  vm_compute. reflexivity.
Defined.

(** ** [load_data_from_files]: files of different widths *)

Section LoadWidths.
Context {cell : Type}.
Variable fs : filesystem cell.

(** X19: when two of the [.csv] files give feature arrays of different
    widths, every [.csv] file is read and the stacking then raises
    [ValueError]. *)
Theorem load_data_from_files_width_mismatch (names : list string)
    (per_file : list (array2 cell * list cell)) (log : list string)
    (FL1 FL2 : array2 cell * list cell) :
  listdir fs BASE_DATA_PATH = Ok names →
  Forall2 (loads_as fs) (csv_files names) per_file →
  FL1 ∈ per_file → FL2 ∈ per_file → width FL1.1 ≠ width FL2.1 →
  load_data_from_files fs log
  = (log ++ map (path_join fs BASE_DATA_PATH) (csv_files names),
     Raise ValueError).
Proof.
  intros Hdir Hloads H1 H2 Hne.
  unfold load_data_from_files, io_bind at 1, os_listdir. rewrite Hdir.
  unfold io_bind at 1. rewrite (load_loop_ok fs names per_file) by done.
  rewrite !app_nil_l. unfold io_bind, io_lift.
  assert (np_vstack (map fst per_file) = Raise ValueError) as ->; [|done].
  destruct per_file as [|FL0 per_file]; [by apply elem_of_nil in H1|].
  cbn [map].
  assert (∃ FL, FL ∈ per_file ∧ width FL.1 ≠ width FL0.1) as (FL & HFL & Hw).
  { destruct (decide (width FL1.1 = width FL0.1)) as [Heq|Hneq].
    - exists FL2. split; [|congruence].
      apply elem_of_cons in H2 as [->|H2]; [congruence|done].
    - exists FL1. split; [|done].
      apply elem_of_cons in H1 as [->|H1]; [done|done]. }
  apply (np_vstack_width_mismatch _ FL.1); [|done].
  apply list_elem_of_fmap. by exists FL.
Qed.
End LoadWidths.

Lemma load_data_from_files_width_mismatch_witness :
  load_data_from_files ragged_fs []
  = ([] ++ map (path_join ragged_fs BASE_DATA_PATH)
               (csv_files ["a.csv"; "b.csv"]%string),
     Raise ValueError).
Proof.
  apply (load_data_from_files_width_mismatch ragged_fs
           ["a.csv"; "b.csv"]%string
           [(Array2 2 [[11;12]], [1]); (Array2 3 [[21;22;23]], [3])] []
           (Array2 2 [[11;12]], [1]) (Array2 3 [[21;22;23]], [3])).
  - reflexivity.
  - repeat constructor; eexists; split; reflexivity.
  - left.
  - right. left.
  - simpl. lia.
Defined.
